(** * Green End SFTP server: the protocol engine

    A shallow embedding of [sftpserver.c] (version negotiation, the
    dispatch engine and the service loop) and of [status.c] (the status
    translator).  Integers of the C code are values of [Z]; a [uint32_t]
    is kept in the range [0, 2^32).  Byte buffers are lists of [Z], each
    element a byte.  The global variables of the server ([protocol],
    [reverse_symlink], [workqueue], [errno]) together with the response
    buffer of the executing worker and the stream of flushed responses
    form one record, threaded through the code by a small state monad. *)

From Stdlib Require Import ZArith List String Ascii Bool Lia Sorted.
From Equations Require Import Equations.
Import ListNotations.

Local Open Scope string_scope.
Local Open Scope list_scope.
Local Open Scope Z_scope.

(* [length] is the length of a list throughout. *)
Local Abbreviation length := Datatypes.length (only parsing).

(** ** Protocol constants *)

(** Modelled from the spec: [sftp.h] is not among the sources.  The spec
    fixes INIT=1, VERSION=2, STATUS=101, SSH_FX_FAILURE=4,
    SSH_FX_OP_UNSUPPORTED=8 and SSH_FX_FILE_ALREADY_EXISTS=11; the other
    values are those of the filexfer drafts the header transcribes. *)
Module sftp_h.

Definition SSH_FXP_INIT : Z := 1.
Definition SSH_FXP_VERSION : Z := 2.
Definition SSH_FXP_STATUS : Z := 101.

Definition SSH_FX_OK : Z := 0.
Definition SSH_FX_EOF : Z := 1.
Definition SSH_FX_NO_SUCH_FILE : Z := 2.
Definition SSH_FX_PERMISSION_DENIED : Z := 3.
Definition SSH_FX_FAILURE : Z := 4.
Definition SSH_FX_BAD_MESSAGE : Z := 5.
Definition SSH_FX_NO_CONNECTION : Z := 6.
Definition SSH_FX_CONNECTION_LOST : Z := 7.
Definition SSH_FX_OP_UNSUPPORTED : Z := 8.
Definition SSH_FX_INVALID_HANDLE : Z := 9.
Definition SSH_FX_NO_SUCH_PATH : Z := 10.
Definition SSH_FX_FILE_ALREADY_EXISTS : Z := 11.
Definition SSH_FX_WRITE_PROTECT : Z := 12.
Definition SSH_FX_NO_MEDIA : Z := 13.
Definition SSH_FX_NO_SPACE_ON_FILESYSTEM : Z := 14.
Definition SSH_FX_QUOTA_EXCEEDED : Z := 15.
Definition SSH_FX_UNKNOWN_PRINCIPAL : Z := 16.
Definition SSH_FX_LOCK_CONFLICT : Z := 17.
Definition SSH_FX_DIR_NOT_EMPTY : Z := 18.
Definition SSH_FX_NOT_A_DIRECTORY : Z := 19.
Definition SSH_FX_INVALID_FILENAME : Z := 20.
Definition SSH_FX_LINK_LOOP : Z := 21.
Definition SSH_FX_CANNOT_DELETE : Z := 22.
Definition SSH_FX_INVALID_PARAMETER : Z := 23.
Definition SSH_FX_FILE_IS_A_DIRECTORY : Z := 24.
Definition SSH_FX_BYTE_RANGE_LOCK_CONFLICT : Z := 25.
Definition SSH_FX_BYTE_RANGE_LOCK_REFUSED : Z := 26.
Definition SSH_FX_DELETE_PENDING : Z := 27.
Definition SSH_FX_FILE_CORRUPT : Z := 28.
Definition SSH_FX_OWNER_INVALID : Z := 29.
Definition SSH_FX_GROUP_INVALID : Z := 30.
Definition SSH_FX_NO_MATCHING_BYTE_RANGE_LOCK : Z := 31.

Definition SSH_FILEXFER_ATTR_SIZE : Z := 0x1.
Definition SSH_FILEXFER_ATTR_PERMISSIONS : Z := 0x4.
Definition SSH_FILEXFER_ATTR_ACCESSTIME : Z := 0x8.
Definition SSH_FILEXFER_ATTR_MODIFYTIME : Z := 0x20.
Definition SSH_FILEXFER_ATTR_OWNERGROUP : Z := 0x80.
Definition SSH_FILEXFER_ATTR_SUBSECOND_TIMES : Z := 0x100.

Definition SSH_FXF_ACCESS_DISPOSITION : Z := 0x7.
Definition SSH_FXF_APPEND_DATA : Z := 0x8.
Definition SSH_FXF_APPEND_DATA_ATOMIC : Z := 0x10.
Definition SSH_FXF_TEXT_MODE : Z := 0x20.
Definition SSH_FXF_NOFOLLOW : Z := 0x400.
Definition SSH_FXF_DELETE_ON_CLOSE : Z := 0x800.

End sftp_h.
Export sftp_h.

(** [(uint32_t)-1], the status that means "consult errno". *)
Definition UINT32_MAX : Z := 0xFFFFFFFF.

(** Conversion of a value to [uint32_t]. *)
Definition to_uint32 (v : Z) : Z := v mod 2 ^ 32.

(** ** Wire codec *)

(** The bytes of a C string (without its terminator). *)
Definition bytes_of_string (s : string) : list Z :=
  map (fun c => Z.of_N (N_of_ascii c)) (list_ascii_of_string s).

(** [be_bytes n v]: the low [n] bytes of [v], most significant first. *)
Fixpoint be_bytes (n : nat) (v : Z) : list Z :=
  match n with
  | O => []
  | S k => Z.land (Z.shiftr v (8 * Z.of_nat k)) 0xFF :: be_bytes k v
  end.

(** The value of a big-endian byte sequence ([ntohl], [get32]). *)
Definition be_value (bs : list Z) : Z :=
  fold_left (fun acc b => acc * 256 + b) bs 0.

Definition enc_uint8 (v : Z) : list Z := be_bytes 1 v.
Definition enc_uint16 (v : Z) : list Z := be_bytes 2 v.
Definition enc_uint32 (v : Z) : list Z := be_bytes 4 v.
Definition enc_uint64 (v : Z) : list Z := be_bytes 8 v.

(** A string on the wire: 32-bit length, then the raw bytes. *)
Definition enc_data (bs : list Z) : list Z :=
  enc_uint32 (Z.of_nat (length bs)) ++ bs.

Definition enc_string (s : string) : list Z := enc_data (bytes_of_string s).

(** ** Server state *)

(** The five protocol tables are immutable globals; the variable
    [protocol] points at one of them, and the code compares it against
    [&sftppreinit] by address. *)
Inductive protocol_ref : Type :=
| ref_sftppreinit
| ref_sftpv3
| ref_sftpv4
| ref_sftpv5
| ref_sftpv6.

Definition protocol_ref_eqb (a b : protocol_ref) : bool :=
  match a, b with
  | ref_sftppreinit, ref_sftppreinit
  | ref_sftpv3, ref_sftpv3
  | ref_sftpv4, ref_sftpv4
  | ref_sftpv5, ref_sftpv5
  | ref_sftpv6, ref_sftpv6 => true
  | _, _ => false
  end.

(** Handlers are function pointers stored in the command tables.
    [sftp_init] is the only handler defined in [sftpserver.c]; the
    filesystem commands live in other files and are named by a number. *)
Inductive handler_ref : Type :=
| handler_sftp_init
| handler_extern (n : nat).

Record sftpcmd : Type := {
  type : Z;
  handler : handler_ref
}.

(** [struct sftpprotocol].  The pair [ncommands, commands] is the list
    [commands]; the pair [nextensions, extensions] is the list of the
    extension names.  The codec callbacks of the struct are not used by
    the code embedded here. *)
Record sftpprotocol : Type := {
  commands : list sftpcmd;
  version : Z;
  attrmask : Z;
  maxstatus : Z;
  extensions : list string
}.

Definition ncommands (p : sftpprotocol) : Z := Z.of_nat (length (commands p)).
Definition nextensions (p : sftpprotocol) : Z := Z.of_nat (length (extensions p)).

(** [struct sftpjob]: the raw request ([data], [len]), the cursor as the
    bytes not yet consumed ([ptr]; [left] is their number), and the
    request id. *)
Record sftpjob : Type := {
  data : list Z;
  id : Z;
  ptr : list Z
}.

(** [struct queue]: the worker pool, with the jobs handed to it. *)
Record queue : Type := {
  nthreads : Z;
  jobs : list sftpjob
}.

Record server : Type := {
  protocol : protocol_ref;
  reverse_symlink : bool;
  workqueue : option queue;      (* a null pointer is [None] *)
  errno : Z;
  buffer : list Z;               (* response under assembly in the worker *)
  output : list (list Z)         (* responses flushed so far, oldest first *)
}.

Definition set_protocol (p : protocol_ref) (st : server) : server :=
  {| protocol := p; reverse_symlink := reverse_symlink st;
     workqueue := workqueue st; errno := errno st;
     buffer := buffer st; output := output st |}.

Definition set_reverse_symlink (b : bool) (st : server) : server :=
  {| protocol := protocol st; reverse_symlink := b;
     workqueue := workqueue st; errno := errno st;
     buffer := buffer st; output := output st |}.

Definition set_workqueue (q : option queue) (st : server) : server :=
  {| protocol := protocol st; reverse_symlink := reverse_symlink st;
     workqueue := q; errno := errno st;
     buffer := buffer st; output := output st |}.

Definition set_buffer (b : list Z) (st : server) : server :=
  {| protocol := protocol st; reverse_symlink := reverse_symlink st;
     workqueue := workqueue st; errno := errno st;
     buffer := b; output := output st |}.

Definition set_output (o : list (list Z)) (st : server) : server :=
  {| protocol := protocol st; reverse_symlink := reverse_symlink st;
     workqueue := workqueue st; errno := errno st;
     buffer := buffer st; output := o |}.

(** The state of a freshly started server: [protocol = &sftppreinit];
    [workqueue] and [reverse_symlink] are globals without initializer,
    hence a null pointer and 0; nothing has been sent. *)
Definition initial_server : server :=
  {| protocol := ref_sftppreinit; reverse_symlink := false;
     workqueue := None; errno := 0; buffer := []; output := [] |}.

(** ** A state monad for the C statements *)

Definition M (A : Type) : Type := server -> A * server.

Definition ret {A} (a : A) : M A := fun st => (a, st).

Definition bind {A B} (m : M A) (f : A -> M B) : M B :=
  fun st => let (a, st') := m st in f a st'.

Definition exec {A} (m : M A) (st : server) : server := snd (m st).

Declare Scope sftp_scope.
Delimit Scope sftp_scope with sftp.
Notation "x <- m ;; k" := (bind m (fun x => k))
  (at level 61, m at next level, right associativity) : sftp_scope.
Notation "m ;; k" := (bind m (fun _ => k))
  (at level 61, right associativity) : sftp_scope.
Local Open Scope sftp_scope.

Definition modify (f : server -> server) : M unit := fun st => (tt, f st).

Definition when (b : bool) (m : M unit) : M unit := if b then m else ret tt.

(** [for(n = 0; n < N; ++n) body(xs[n])] over the [N] elements [xs]. *)
Fixpoint for_each {A} (xs : list A) (body : A -> M unit) : M unit :=
  match xs with
  | [] => ret tt
  | x :: xs' => body x ;; for_each xs' body
  end.

(** ** Response assembly *)

(** Modelled from the spec: [send.c] is not among the sources.  A
    response is assembled in the worker's buffer by appending big-endian
    integers and length-prefixed strings; "begin sub" reserves a 32-bit
    length and returns the offset just past it, "end sub" back-patches
    the length at that offset; [send_end] flushes the buffer as one
    response (the framer prefixes it with its length, see [frame]). *)
Definition send_begin : M unit := modify (set_buffer []).

Definition send_bytes (bs : list Z) : M unit :=
  modify (fun st => set_buffer (buffer st ++ bs) st).

Definition send_uint8 (v : Z) : M unit := send_bytes (enc_uint8 v).
Definition send_uint16 (v : Z) : M unit := send_bytes (enc_uint16 v).
Definition send_uint32 (v : Z) : M unit := send_bytes (enc_uint32 v).
Definition send_uint64 (v : Z) : M unit := send_bytes (enc_uint64 v).
Definition send_string (s : string) : M unit := send_bytes (enc_string s).

Definition send_sub_begin : M nat :=
  fun st => let st' := set_buffer (buffer st ++ [0; 0; 0; 0]) st in
            (length (buffer st'), st').

Definition send_sub_end (offset : nat) : M unit :=
  modify (fun st =>
    let latest := length (buffer st) in
    set_buffer (firstn (offset - 4) (buffer st)
                ++ enc_uint32 (Z.of_nat (latest - offset))
                ++ skipn offset (buffer st)) st).

Definition send_end : M unit :=
  modify (fun st => set_output (output st ++ [buffer st]) st).

(** A response as it appears on the wire. *)
Definition frame (payload : list Z) : list Z := enc_data payload.

(** ** Request parsing *)

(** Modelled from the spec: [parse.c] is not among the sources.  A
    decoder fails with [SSH_FX_BAD_MESSAGE] on a short read and leaves
    its result untouched; otherwise it reads a big-endian value and
    advances the cursor. *)
Definition parse_uint32 (job : sftpjob) (ur : Z) : Z * Z * sftpjob :=
  match ptr job with
  | b3 :: b2 :: b1 :: b0 :: rest =>
      (SSH_FX_OK, be_value [b3; b2; b1; b0],
       {| data := data job; id := id job; ptr := rest |})
  | _ => (SSH_FX_BAD_MESSAGE, ur, job)
  end.

(** ** The status translator ([status.c]) *)

Definition status_to_string (status : Z) : string :=
  if status =? SSH_FX_OK then "OK"
  else if status =? SSH_FX_EOF then "end of file"
  else if status =? SSH_FX_NO_SUCH_FILE then "file does not exist"
  else if status =? SSH_FX_PERMISSION_DENIED then "permission denied"
  else if status =? SSH_FX_FAILURE then "operation failed"
  else if status =? SSH_FX_BAD_MESSAGE then "badly encoded SFTP packet"
  else if status =? SSH_FX_NO_CONNECTION then "no connection"
  else if status =? SSH_FX_CONNECTION_LOST then "connection lost"
  else if status =? SSH_FX_OP_UNSUPPORTED then "operation not supported"
  else if status =? SSH_FX_INVALID_HANDLE then "invalid handle"
  else if status =? SSH_FX_NO_SUCH_PATH then "path does not exist or is invalid"
  else if status =? SSH_FX_FILE_ALREADY_EXISTS then "file already exists"
  else if status =? SSH_FX_WRITE_PROTECT then "file is on read-only medium"
  else if status =? SSH_FX_NO_MEDIA then "no medium in drive"
  else if status =? SSH_FX_NO_SPACE_ON_FILESYSTEM then "no space on filesystem"
  else if status =? SSH_FX_QUOTA_EXCEEDED then "quota exceeded"
  else if status =? SSH_FX_UNKNOWN_PRINCIPAL then "unknown principal"
  else if status =? SSH_FX_LOCK_CONFLICT then "file is locked"
  else if status =? SSH_FX_DIR_NOT_EMPTY then "directory is not empty"
  else if status =? SSH_FX_NOT_A_DIRECTORY then "file is not a directory"
  else if status =? SSH_FX_INVALID_FILENAME then "invalid filename"
  else if status =? SSH_FX_LINK_LOOP then "too many symbolic links"
  else if status =? SSH_FX_CANNOT_DELETE then "file cannot be deleted"
  else if status =? SSH_FX_INVALID_PARAMETER then "invalid parameter"
  else if status =? SSH_FX_FILE_IS_A_DIRECTORY then "file is a directory"
  else if status =? SSH_FX_BYTE_RANGE_LOCK_CONFLICT then "byte range is locked"
  else if status =? SSH_FX_BYTE_RANGE_LOCK_REFUSED then "cannot lock byte range"
  else if status =? SSH_FX_DELETE_PENDING then "file deletion pending"
  else if status =? SSH_FX_FILE_CORRUPT then "file is corrupt"
  else if status =? SSH_FX_OWNER_INVALID then "invalid owner"
  else if status =? SSH_FX_GROUP_INVALID then "invalid group"
  else if status =? SSH_FX_NO_MATCHING_BYTE_RANGE_LOCK then "no such lock"
  else "unknown status".

(** The error numbers of [<errno.h>] that [errnotab] names; their values
    belong to the platform. *)
Record errno_h : Type := {
  EPERM : Z;
  EACCES : Z;
  ENOENT : Z;
  EIO : Z;
  ENOSPC : Z;
  ENOTDIR : Z;
  EISDIR : Z;
  EEXIST : Z;
  EROFS : Z;
  ELOOP : Z;
  ENAMETOOLONG : Z;
  ENOTEMPTY : Z;
  EDQUOT : Z
}.

Definition errnotab (E : errno_h) : list (Z * Z) :=
  [ (0, SSH_FX_OK);
    (EPERM E, SSH_FX_PERMISSION_DENIED);
    (EACCES E, SSH_FX_PERMISSION_DENIED);
    (ENOENT E, SSH_FX_NO_SUCH_FILE);
    (EIO E, SSH_FX_FILE_CORRUPT);
    (ENOSPC E, SSH_FX_NO_SPACE_ON_FILESYSTEM);
    (ENOTDIR E, SSH_FX_NOT_A_DIRECTORY);
    (EISDIR E, SSH_FX_FILE_IS_A_DIRECTORY);
    (EEXIST E, SSH_FX_FILE_ALREADY_EXISTS);
    (EROFS E, SSH_FX_WRITE_PROTECT);
    (ELOOP E, SSH_FX_LINK_LOOP);
    (ENAMETOOLONG E, SSH_FX_INVALID_FILENAME);
    (ENOTEMPTY E, SSH_FX_DIR_NOT_EMPTY);
    (EDQUOT E, SSH_FX_QUOTA_EXCEEDED);
    (-1, SSH_FX_FAILURE) ].

(** The scan of [send_errno_status]:
    [for(n = 0; tab[n].errno_value != errno_value && tab[n].errno_value != -1; ++n)],
    returning [tab[n].status_value].  The table ends with the entry for
    [-1], so the scan never leaves it; the value for the empty table only
    makes the function total. *)
Fixpoint errnotab_scan (tab : list (Z * Z)) (errno_value : Z) : Z :=
  match tab with
  | [] => SSH_FX_FAILURE
  | (e, s) :: tab' =>
      if negb (e =? errno_value) && negb (e =? -1)
      then errnotab_scan tab' errno_value
      else s
  end.

(** ** Properties of the wire codec *)

Lemma byte_of_uint32 k v :
  Z.land (Z.shiftr v (8 * Z.of_nat k)) 0xFF = (v / 2 ^ (8 * Z.of_nat k)) mod 256.
Proof.
  rewrite Z.shiftr_div_pow2 by lia.
  change 0xFF with (Z.ones 8). rewrite Z.land_ones by lia. reflexivity.
Qed.

Lemma be_bytes_length n v : length (be_bytes n v) = n.
Proof. induction n; simpl; congruence. Qed.

Lemma enc_uint32_length v : length (enc_uint32 v) = 4%nat.
Proof. apply be_bytes_length. Qed.

(** Encoding the value of four bytes gives the four bytes back. *)
Lemma enc_uint32_be_value b3 b2 b1 b0 :
  0 <= b3 < 256 -> 0 <= b2 < 256 -> 0 <= b1 < 256 -> 0 <= b0 < 256 ->
  enc_uint32 (be_value [b3; b2; b1; b0]) = [b3; b2; b1; b0].
Proof.
  intros H3 H2 H1 H0. unfold enc_uint32, be_value. simpl fold_left.
  unfold be_bytes. rewrite !byte_of_uint32.
  change (2 ^ (8 * Z.of_nat 3)) with 16777216.
  change (2 ^ (8 * Z.of_nat 2)) with 65536.
  change (2 ^ (8 * Z.of_nat 1)) with 256.
  change (2 ^ (8 * Z.of_nat 0)) with 1.
  repeat f_equal; Z.div_mod_to_equations; lia.
Qed.

(** Decoding an encoded 32-bit value gives the value back. *)
Lemma be_value_enc_uint32 v :
  0 <= v < 2 ^ 32 -> be_value (enc_uint32 v) = v.
Proof.
  intros Hv. unfold enc_uint32, be_value, be_bytes. rewrite !byte_of_uint32.
  change (2 ^ (8 * Z.of_nat 3)) with 16777216.
  change (2 ^ (8 * Z.of_nat 2)) with 65536.
  change (2 ^ (8 * Z.of_nat 1)) with 256.
  change (2 ^ (8 * Z.of_nat 0)) with 1.
  simpl fold_left. change (2 ^ 32) with 4294967296 in Hv.
  Z.div_mod_to_equations; lia.
Qed.

Lemma be_value_bound b3 b2 b1 b0 :
  0 <= b3 < 256 -> 0 <= b2 < 256 -> 0 <= b1 < 256 -> 0 <= b0 < 256 ->
  0 <= be_value [b3; b2; b1; b0] < 2 ^ 32.
Proof. intros. unfold be_value. simpl. lia. Qed.

(** The table active before INIT ([sftppreinittab], [sftppreinit]): it
    holds the INIT command only. *)
Definition sftppreinittab : list sftpcmd :=
  [ {| type := SSH_FXP_INIT; handler := handler_sftp_init |} ].

Definition sftppreinit : sftpprotocol :=
  {| commands := sftppreinittab;
     version := 3;
     attrmask := 0xFFFFFFFF;            (* never used *)
     maxstatus := SSH_FX_OP_UNSUPPORTED;
     extensions := [] |}.

Section Server.

#[local] Set Default Proof Using "Type".

(** What the build takes from files that are not embedded here. *)

(** [<errno.h>] and [strerror] of the C library. *)
Variable E : errno_h.
Variable strerror : Z -> string.
(** [config.h]: the version string and the symlink argument order. *)
Variable VERSION : string.
Variable REVERSE_SYMLINK : bool.
(** [sftpserver.h]: the status by which a handler says that it has sent
    its response itself. *)
Variable HANDLER_RESPONDED : Z.
(** The tables of the four protocol versions ([v3.c] .. [v6.c]). *)
Variables sftpv3 sftpv4 sftpv5 sftpv6 : sftpprotocol.
(** The handlers of the filesystem commands: each receives the job,
    acts on the server state and returns its status (a [uint32_t]). *)
Variable extern_handler : nat -> sftpjob -> server -> Z * server.

Definition deref (p : protocol_ref) : sftpprotocol :=
  match p with
  | ref_sftppreinit => sftppreinit
  | ref_sftpv3 => sftpv3
  | ref_sftpv4 => sftpv4
  | ref_sftpv5 => sftpv5
  | ref_sftpv6 => sftpv6
  end.

(** ** The status translator, continued *)

(** [send_status] and [send_errno_status] call each other.  Each is
    written over the other one; the knot is tied below. *)
Definition send_status_over (send_errno_status : sftpjob -> M unit)
           (job : sftpjob) (status : Z) (msg : option string) : M unit :=
  if status =? UINT32_MAX then
    send_errno_status job
  else
    let msg := match msg with
               | None => status_to_string status
               | Some m => m
               end in
    maxstatus <- (fun st => (maxstatus (deref (protocol st)), st)) ;;
    let status := if status >? maxstatus then SSH_FX_FAILURE else status in
    send_begin ;;
    send_uint8 SSH_FXP_STATUS ;;
    send_uint32 (id job) ;;
    send_uint32 status ;;
    send_string msg ;;
    send_string "en" ;;
    send_end.

Definition send_errno_status_over
           (send_status : sftpjob -> Z -> option string -> M unit)
           (job : sftpjob) : M unit :=
  errno_value <- (fun st => (errno st, st)) ;;
  send_status job (errnotab_scan (errnotab E) errno_value)
              (Some (strerror errno_value)).

(** No status of [errnotab] is [(uint32_t)-1], so the call chain
    [send_status -> send_errno_status -> send_status] ends there (lemma
    [send_errno_status_eq]); the innermost callback is never run. *)
Definition send_errno_status : sftpjob -> M unit :=
  send_errno_status_over (send_status_over (fun _ => ret tt)).

Definition send_status : sftpjob -> Z -> option string -> M unit :=
  send_status_over send_errno_status.

Definition send_ok (job : sftpjob) : M unit := send_status job SSH_FX_OK None.


(** ** Initialization ([sftp_init]) *)

Definition protocol_version : M Z :=
  fun st => (version (deref (protocol st)), st).

Definition protocol_extensions : M (list string) :=
  fun st => (extensions (deref (protocol st)), st).

(** Modelled from the spec: [queue.c] is not among the sources.
    [queue_init] creates the pool and stores it in [workqueue];
    [queue_add] hands a job to the pool. *)
Definition queue_init (n : Z) : M unit :=
  modify (set_workqueue (Some {| nthreads := n; jobs := [] |})).

Definition queue_add (q : queue) (job : sftpjob) : M unit :=
  modify (set_workqueue
            (Some {| nthreads := nthreads q; jobs := jobs q ++ [job] |})).

(** The string ["\n"]. *)
Definition newline : string := String (ascii_of_nat 10) EmptyString.

(** The part of [sftp_init] from [send_begin] to [send_end]. *)
Definition send_version : M unit :=
  send_begin ;;
  send_uint8 SSH_FXP_VERSION ;;
  v <- protocol_version ;;
  send_uint32 v ;;
  v <- protocol_version ;;
  when (v >=? 4)
    (send_string "newline" ;;
     send_string newline) ;;
  v <- protocol_version ;;
  when (v =? 5)
    (send_string "supported" ;;
     offset <- send_sub_begin ;;
     send_uint32 (Z.lor SSH_FILEXFER_ATTR_SIZE
                 (Z.lor SSH_FILEXFER_ATTR_PERMISSIONS
                 (Z.lor SSH_FILEXFER_ATTR_ACCESSTIME
                 (Z.lor SSH_FILEXFER_ATTR_MODIFYTIME
                 (Z.lor SSH_FILEXFER_ATTR_OWNERGROUP
                        SSH_FILEXFER_ATTR_SUBSECOND_TIMES))))) ;;
     send_uint32 0 ;;                 (* supported-attribute-bits *)
     send_uint32 (Z.lor SSH_FXF_ACCESS_DISPOSITION
                 (Z.lor SSH_FXF_APPEND_DATA
                 (Z.lor SSH_FXF_APPEND_DATA_ATOMIC
                        SSH_FXF_TEXT_MODE))) ;;
     send_uint32 0xFFFFFFFF ;;
     send_uint32 0 ;;                 (* max-read-size *)
     exts <- protocol_extensions ;;
     for_each exts send_string ;;
     send_sub_end offset) ;;
  v <- protocol_version ;;
  when (v >=? 6)
    (send_string "supported2" ;;
     offset <- send_sub_begin ;;
     send_uint32 (Z.lor SSH_FILEXFER_ATTR_SIZE
                 (Z.lor SSH_FILEXFER_ATTR_PERMISSIONS
                 (Z.lor SSH_FILEXFER_ATTR_ACCESSTIME
                 (Z.lor SSH_FILEXFER_ATTR_MODIFYTIME
                 (Z.lor SSH_FILEXFER_ATTR_OWNERGROUP
                        SSH_FILEXFER_ATTR_SUBSECOND_TIMES))))) ;;
     send_uint32 0 ;;                 (* supported-attribute-bits *)
     send_uint32 (Z.lor SSH_FXF_ACCESS_DISPOSITION
                 (Z.lor SSH_FXF_APPEND_DATA
                 (Z.lor SSH_FXF_APPEND_DATA_ATOMIC
                 (Z.lor SSH_FXF_TEXT_MODE
                 (Z.lor SSH_FXF_NOFOLLOW
                        SSH_FXF_DELETE_ON_CLOSE))))) ;; (* supported-open-flags *)
     send_uint32 0xFFFFFFFF ;;        (* supported-access-mask *)
     send_uint32 0 ;;                 (* max-read-size *)
     send_uint16 0 ;;                 (* supported-open-block-vector *)
     send_uint16 0 ;;                 (* supported-block-vector *)
     send_uint32 0 ;;                 (* attrib-extension-count *)
     exts <- protocol_extensions ;;
     send_uint32 (Z.of_nat (length exts)) ;; (* extension-count *)
     for_each exts send_string ;;
     send_sub_end offset ;;
     send_string "versions" ;;
     send_string "3,4,5,6") ;;
  send_string "vendor-id" ;;
  offset <- send_sub_begin ;;
  send_string "Green End" ;;
  send_string "Green End SFTP Server" ;;
  send_string VERSION ;;
  send_uint64 0 ;;
  send_sub_end offset ;;
  send_string "symlink-order@rjk.greenend.org.uk" ;;
  rs <- (fun st => (reverse_symlink st, st)) ;;
  (if rs
   then send_string "targetpath-linkpath"
   else send_string "linkpath-targetpath") ;;
  v <- protocol_version ;;
  when (v >=? 6)
    (send_string "link-order@rjk.greenend.org.uk" ;;
     send_string "linkpath-targetpath") ;;
  send_end.

(** The [switch(version)] of [sftp_init]: [None] for the cases that
    return [SSH_FX_OP_UNSUPPORTED], otherwise the assignments made. *)
Definition select_protocol (version : Z) : option (M unit) :=
  if (version =? 0) || (version =? 1) || (version =? 2) then
    None
  else if version =? 3 then
    Some (modify (set_protocol ref_sftpv3) ;;
          when REVERSE_SYMLINK (modify (set_reverse_symlink true)))
  else if version =? 4 then
    Some (modify (set_protocol ref_sftpv4))
  else if version =? 5 then
    Some (modify (set_protocol ref_sftpv5))
  else
    Some (modify (set_protocol ref_sftpv6)).

Definition sftp_init (job : sftpjob) : M Z :=
  p <- (fun st => (protocol st, st)) ;;
  (* Cannot initialize more than once *)
  if negb (protocol_ref_eqb p ref_sftppreinit) then
    ret SSH_FX_FAILURE
  else
    let '(rc, version, _) := parse_uint32 job 0 in
    if negb (rc =? SSH_FX_OK) then
      ret rc                          (* pcheck *)
    else
      match select_protocol version with
      | None => ret SSH_FX_OP_UNSUPPORTED
      | Some assign =>
          assign ;;
          send_version ;;
          v <- protocol_version ;;
          when (v <? 6) (queue_init 4) ;;
          ret HANDLER_RESPONDED
      end.

(** ** The dispatch engine ([process_sftpjob]) *)

(** The binary search of [process_sftpjob] over [commands[l..r]]: the
    entry whose type is [ty], if the search meets one. *)
Equations? locate (cmds : list sftpcmd) (ty l r : Z) : option sftpcmd
  by wf (Z.to_nat (r - l + 1)) lt :=
  locate cmds ty l r with Z_le_gt_dec l r => {
    | right _ => None
    | left _ =>
        let m := Z.quot (l + r) 2 in
        match nth_error cmds (Z.to_nat m) with
        | None => None                (* outside the array: not reached *)
        | Some c =>
            let mtype := type c in
            if ty <? mtype then locate cmds ty l (m - 1)
            else if ty >? mtype then locate cmds ty (m + 1) r
            else Some c
        end }.
Proof.
  all: subst m; pose proof (Z.quot_rem' (l + r) 2);
    pose proof (Z.rem_bound_abs (l + r) 2); lia.
Qed.

Definition run_handler (h : handler_ref) (job : sftpjob) : M Z :=
  match h with
  | handler_sftp_init => sftp_init job
  | handler_extern n =>
      fun st => let (status, st') := extern_handler n job st in
                (to_uint32 status, st')
  end.

(** The code after the label [done]: the job is released, and the work
    queue is created if this was not INIT and there is none yet. *)
Definition done (ty : Z) : M unit :=
  wq <- (fun st => (workqueue st, st)) ;;
  when (negb (ty =? SSH_FXP_INIT) &&
        match wq with None => true | Some _ => false end)
    (queue_init 4).

(** [process_sftpjob].  The binary search is [locate]; the calls
    [serialize] and [serialize_remove_job] act on the queues of the
    serialization gate only, which are no part of the state kept here. *)
Definition process_sftpjob (jv : sftpjob) : M unit :=
  let job := {| data := data jv; id := 0; ptr := data jv |} in
  match ptr job with
  | [] =>
      (* Empty messages are never valid *)
      send_status job SSH_FX_BAD_MESSAGE (Some "empty request") ;;
      done 0
  | ty :: rest =>
      let job := {| data := data job; id := id job; ptr := rest |} in
      (* Everything but SSH_FXP_INIT has an ID field *)
      let '(rc, job_id, job) :=
        if negb (ty =? SSH_FXP_INIT)
        then parse_uint32 job (id job)
        else (SSH_FX_OK, id job, job) in
      let job := {| data := data job; id := job_id; ptr := ptr job |} in
      if negb (rc =? SSH_FX_OK) then
        send_status job rc (Some "missing ID field") ;;
        done ty
      else
        p <- (fun st => (deref (protocol st), st)) ;;
        match locate (commands p) ty 0 (ncommands p - 1) with
        | Some c =>
            status <- run_handler (handler c) job ;;
            (if status =? HANDLER_RESPONDED
             then ret tt
             else send_status job status None) ;;
            done ty
        | None =>
            (* We did not find a handler *)
            send_status job SSH_FX_OP_UNSUPPORTED None ;;
            done ty
        end
  end.

(** ** The server loop ([sftp_service]) *)

(** Modelled from the spec: [utils.c] is not among the sources.
    [do_read] delivers exactly [size] bytes of the input stream, or
    reports that the stream ended first ([None], a nonzero return). *)
Definition do_read (size : Z) (input : list Z) : option (list Z * list Z) :=
  let n := Z.to_nat size in
  if (length input <? n)%nat then None
  else Some (firstn n input, skipn n input).

(** How [sftp_service] ends: it returns to [main], or [fatal] ends the
    process. *)
Inductive outcome : Type :=
| returned
| fatal (msg : string).

(** A job as allocated by the reader: only [data] (and [len]) are set. *)
Definition new_job (bytes : list Z) : sftpjob :=
  {| data := bytes; id := 0; ptr := [] |}.

(** One turn of the loop body once the job has been read: the job goes
    to the pool if there is one, and is processed by the reader
    otherwise.  Jobs handed to the pool stay recorded in [workqueue];
    their execution by the worker threads is outside this embedding. *)
Definition serve_job (job : sftpjob) : M unit :=
  wq <- (fun st => (workqueue st, st)) ;;
  match wq with
  | Some q => queue_add q job
  | None => process_sftpjob job
  end.

Lemma do_read_length size input got rest :
  do_read size input = Some (got, rest) ->
  length got = Z.to_nat size /\
  length input = (Z.to_nat size + length rest)%nat /\
  input = got ++ rest.
Proof.
  unfold do_read. destruct (Nat.ltb_spec (length input) (Z.to_nat size));
    [discriminate|].
  intros H'; inversion H'; subst; clear H'.
  rewrite length_firstn, length_skipn, firstn_skipn. repeat split; lia.
Qed.

Definition inspect {A} (a : A) : {b : A | a = b} := exist _ a eq_refl.

Opaque do_read.

(** The loop of [sftp_service] over the input stream of the connection
    (a finite list of bytes: the stream up to its end).  [fatal] ends
    the process at once, in the state reached. *)
Equations? sftp_service_loop (input : list Z) (st : server) : outcome * server
  by wf (length input) lt :=
  sftp_service_loop input st with inspect (do_read 4 input) => {
    | exist _ None _ => (returned, st)
    | exist _ (Some (len, input1)) _ with inspect (be_value len =? 0) => {
        | exist _ true _ => (fatal "zero length job", st)
        | exist _ false _ with inspect (do_read (be_value len) input1) => {
            | exist _ None _ => (fatal "read error: unexpected eof", st)
            | exist _ (Some (bytes, input2)) _ =>
                sftp_service_loop input2 (exec (serve_job (new_job bytes)) st)
          }
      }
  }.
Proof.
  repeat match goal with
         | H : do_read _ _ = Some _ |- _ => apply do_read_length in H
         end.
  change (Z.to_nat 4) with 4%nat in *. lia.
Qed.

Transparent do_read.

Definition sftp_service (input : list Z) : outcome * server :=
  sftp_service_loop input initial_server.

(** ** What the spec says a response looks like *)

(** The state after a response [payload] has been assembled from
    [send_begin] to [send_end]: it is the content of the worker's buffer
    and the newest flushed response. *)
Definition emit (payload : list Z) (st : server) : server :=
  set_output (output st ++ [payload]) (set_buffer payload st).

(** Status response, in the spec's words: type STATUS, then
    [id, uint32 status, string message, string "en"]. *)
Definition status_response (id status : Z) (msg : string) : list Z :=
  enc_uint8 SSH_FXP_STATUS ++ enc_uint32 id ++ enc_uint32 status
  ++ enc_string msg ++ enc_string "en".

(** The table active in a state. *)
Definition active (st : server) : sftpprotocol := deref (protocol st).

(** The code sent for a status: statuses the active version does not
    know become [SSH_FX_FAILURE]. *)
Definition coerce (st : server) (status : Z) : Z :=
  if status >? maxstatus (active st) then SSH_FX_FAILURE else status.

(** The status that [send_errno_status] derives from an error number. *)
Definition errno_status (errno_value : Z) : Z :=
  errnotab_scan (errnotab E) errno_value.

(** * Properties *)

(** Runs the assembly statements of a response on a state, leaving the
    encoders of the fields folded. *)
Ltac run_sends :=
  cbv [bind ret modify when exec fst snd
       send_begin send_bytes send_uint8 send_uint16 send_uint32 send_uint64
       send_string send_end queue_init protocol_version protocol_extensions
       set_buffer set_output set_protocol set_workqueue set_reverse_symlink
       buffer output protocol reverse_symlink workqueue errno].

(** ** The status translator *)

Lemma status_to_string_nonempty status :
  status_to_string status <> EmptyString.
Proof.
  unfold status_to_string.
  repeat match goal with
         | |- context [if ?b then _ else _] => destruct b; [discriminate|]
         end.
  discriminate.
Qed.

Lemma errnotab_scan_cases tab e :
  errnotab_scan tab e = SSH_FX_FAILURE \/ In (errnotab_scan tab e) (map snd tab).
Proof.
  induction tab as [|[k s] tab IH]; simpl; [now left|].
  destruct (negb (k =? e) && negb (k =? -1)).
  - destruct IH; [now left | right; now right].
  - right; now left.
Qed.

Lemma errno_status_range e : 0 <= errno_status e <= 31.
Proof.
  unfold errno_status.
  destruct (errnotab_scan_cases (errnotab E) e) as [H|H].
  - rewrite H. unfold SSH_FX_FAILURE. lia.
  - remember (errnotab_scan (errnotab E) e) as s eqn:Hs. clear Hs. simpl in H.
    repeat (destruct H as [H|H]; [rewrite <- H; compute; split; discriminate|]).
    contradiction.
Qed.

Lemma errno_status_not_sentinel e : errno_status e <> UINT32_MAX.
Proof. pose proof (errno_status_range e). unfold UINT32_MAX. lia. Qed.

(** A call with an ordinary status assembles and flushes one STATUS
    response. *)
Lemma send_status_over_assemble callback job status msg st :
  status <> UINT32_MAX ->
  send_status_over callback job status msg st
  = (tt, emit (status_response (id job) (coerce st status)
                 (match msg with
                  | None => status_to_string status
                  | Some m => m
                  end)) st).
Proof.
  intros Hs. unfold send_status_over.
  destruct (Z.eqb_spec status UINT32_MAX) as [|_]; [contradiction|].
  unfold emit, status_response, coerce, active. run_sends.
  rewrite app_nil_l, <- !app_assoc. reflexivity.
Qed.

Lemma send_status_assemble job status msg st :
  status <> UINT32_MAX ->
  send_status job status msg st
  = (tt, emit (status_response (id job) (coerce st status)
                 (match msg with
                  | None => status_to_string status
                  | Some m => m
                  end)) st).
Proof. apply send_status_over_assemble. Qed.

(** The sentinel goes to [send_errno_status]. *)
Lemma send_status_sentinel job msg st :
  send_status job UINT32_MAX msg st = send_errno_status job st.
Proof. reflexivity. Qed.

(** [send_errno_status] is [send_status] of the translated status with
    the text of the error: the equation the C code states. *)
Lemma send_errno_status_eq job st :
  send_errno_status job st
  = send_status job (errno_status (errno st)) (Some (strerror (errno st))) st.
Proof.
  unfold send_errno_status, send_errno_status_over. cbn.
  fold (errno_status (errno st)).
  rewrite send_status_assemble by apply errno_status_not_sentinel.
  apply send_status_over_assemble, errno_status_not_sentinel.
Qed.

(** The arguments of the call that assembles the response: those given,
    or those [send_errno_status] derives from [errno]. *)
Definition assembled_status (st : server) (status : Z) : Z :=
  if status =? UINT32_MAX then errno_status (errno st) else status.

Definition assembled_msg (st : server) (status : Z) (msg : option string)
  : option string :=
  if status =? UINT32_MAX then Some (strerror (errno st)) else msg.

Definition message_text (status : Z) (msg : option string) : string :=
  match msg with
  | None => status_to_string status
  | Some m => m
  end.

(** Every call of [send_status] flushes exactly one STATUS response. *)
Lemma send_status_emits job status msg st :
  send_status job status msg st
  = (tt, emit (status_response (id job)
                 (coerce st (assembled_status st status))
                 (message_text (assembled_status st status)
                               (assembled_msg st status msg))) st).
Proof.
  unfold assembled_status, assembled_msg, message_text.
  destruct (Z.eqb_spec status UINT32_MAX) as [->|Hs].
  - rewrite send_status_sentinel, send_errno_status_eq.
    rewrite send_status_assemble by apply errno_status_not_sentinel.
    reflexivity.
  - now rewrite send_status_assemble.
Qed.

Lemma emit_output payload st : output (emit payload st) = output st ++ [payload].
Proof. reflexivity. Qed.

Lemma emit_protocol payload st : protocol (emit payload st) = protocol st.
Proof. reflexivity. Qed.

Lemma emit_workqueue payload st : workqueue (emit payload st) = workqueue st.
Proof. reflexivity. Qed.


(** C6, amended.  Every STATUS response is assembled as: type byte
    STATUS, the request id, the 32-bit status code, the message string,
    the language string ["en"].  When [send_status] is given a status
    other than the errno sentinel and no message, the message is the
    entry of [status_to_string] for that status, and no entry of that
    table is empty; a message that is given is sent as it is.  For the
    errno sentinel the message is the text of the error,
    [strerror (errno)], whether a message was given or not. *)
Theorem status_response_layout job status msg st :
  exists code text,
    send_status job status msg st
    = (tt, emit (enc_uint8 SSH_FXP_STATUS ++ enc_uint32 (id job)
                 ++ enc_uint32 code ++ enc_string text ++ enc_string "en") st)
    /\ (status <> UINT32_MAX -> msg = None ->
        text = status_to_string status)
    /\ (status <> UINT32_MAX -> forall m, msg = Some m -> text = m)
    /\ (status = UINT32_MAX -> text = strerror (errno st))
    /\ (forall s, status_to_string s <> EmptyString).
Proof.
  exists (coerce st (assembled_status st status)),
         (message_text (assembled_status st status) (assembled_msg st status msg)).
  split; [apply send_status_emits|].
  unfold assembled_status, assembled_msg, message_text.
  split; [|split; [|split]].
  - intros Hs ->. destruct (Z.eqb_spec status UINT32_MAX); [contradiction|].
    reflexivity.
  - intros Hs m ->. destruct (Z.eqb_spec status UINT32_MAX); [contradiction|].
    reflexivity.
  - intros ->. reflexivity.
  - apply status_to_string_nonempty.
Qed.

(** C10, amended.  The default message is chosen before the status is
    limited to [maxstatus]: a status above [maxstatus], other than the
    errno sentinel, that comes without a message is sent with the code
    [SSH_FX_FAILURE] and the message of the original status, which is
    not the message of [SSH_FX_FAILURE]. *)
Theorem message_chosen_before_coercion job status st :
  SSH_FX_FAILURE <= maxstatus (active st) ->
  status <> UINT32_MAX ->
  status > maxstatus (active st) ->
  send_status job status None st
  = (tt, emit (status_response (id job) SSH_FX_FAILURE
                 (status_to_string status)) st)
  /\ status_to_string status <> status_to_string SSH_FX_FAILURE.
Proof.
  intros Hmax Hs Hgt. split.
  - rewrite send_status_assemble by assumption. unfold coerce.
    destruct (Z.gtb_spec status (maxstatus (active st))); [reflexivity | lia].
  - assert (Hne : status <> SSH_FX_FAILURE) by lia.
    unfold status_to_string at 1.
    repeat match goal with
           | |- context [if ?x =? ?y then _ else _] =>
               destruct (Z.eqb_spec x y); [try discriminate; contradiction|]
           end.
    discriminate.
Qed.

(** ** The errno table *)

(** The scan of a table that ends with the entry for [-1]: a key of the
    body is found at its entry, any other value ends at the last entry. *)
Lemma errnotab_scan_hit body last k s :
  NoDup (map fst body) -> ~ In (-1) (map fst body) -> In (k, s) body ->
  errnotab_scan (body ++ [last]) k = s.
Proof.
  induction body as [|[k0 s0] body IH]; simpl; [contradiction|].
  intros Hnd Hterm [Heq|Hin].
  - inversion Heq; subst. rewrite Z.eqb_refl. reflexivity.
  - inversion Hnd as [|? ? Hk0 Hnd']; subst.
    destruct (Z.eqb_spec k0 k) as [->|_].
    + exfalso. apply Hk0. change k with (fst (k, s)). now apply in_map.
    + destruct (Z.eqb_spec k0 (-1)) as [->|_]; [exfalso; apply Hterm; now left|].
      simpl. apply IH; auto.
Qed.

Lemma errnotab_scan_miss body d e :
  ~ In (-1) (map fst body) -> ~ In e (map fst body) ->
  errnotab_scan (body ++ [(-1, d)]) e = d.
Proof.
  induction body as [|[k0 s0] body IH]; cbn [app map fst In errnotab_scan];
    intros Hterm Hmiss.
  - rewrite (Z.eqb_refl (-1)), andb_false_r. reflexivity.
  - destruct (Z.eqb_spec k0 e) as [->|_]; [exfalso; apply Hmiss; now left|].
    destruct (Z.eqb_spec k0 (-1)) as [->|_]; [exfalso; apply Hterm; now left|].
    simpl. apply IH; auto.
Qed.

(** The error numbers that [errnotab] names. *)
Definition errno_names : list Z :=
  [ EPERM E; EACCES E; ENOENT E; EIO E; ENOSPC E; ENOTDIR E; EISDIR E;
    EEXIST E; EROFS E; ELOOP E; ENAMETOOLONG E; ENOTEMPTY E; EDQUOT E ].

(** ** The VERSION response *)

(** The VERSION response in the spec's words: the type byte, the chosen
    version, then the advertised extensions, each a name and its data
    (both strings on the wire). *)
Definition enc_extension (ext : string * list Z) : list Z :=
  enc_string (fst ext) ++ enc_data (snd ext).

Definition version_response (v : Z) (exts : list (string * list Z)) : list Z :=
  enc_uint8 SSH_FXP_VERSION ++ enc_uint32 v ++ List.concat (map enc_extension exts).

Definition supported_attribute_mask : Z :=
  Z.lor SSH_FILEXFER_ATTR_SIZE
 (Z.lor SSH_FILEXFER_ATTR_PERMISSIONS
 (Z.lor SSH_FILEXFER_ATTR_ACCESSTIME
 (Z.lor SSH_FILEXFER_ATTR_MODIFYTIME
 (Z.lor SSH_FILEXFER_ATTR_OWNERGROUP
        SSH_FILEXFER_ATTR_SUBSECOND_TIMES)))).

Definition supported_open_flags : Z :=
  Z.lor SSH_FXF_ACCESS_DISPOSITION
 (Z.lor SSH_FXF_APPEND_DATA
 (Z.lor SSH_FXF_APPEND_DATA_ATOMIC
        SSH_FXF_TEXT_MODE)).

Definition supported2_open_flags : Z :=
  Z.lor SSH_FXF_ACCESS_DISPOSITION
 (Z.lor SSH_FXF_APPEND_DATA
 (Z.lor SSH_FXF_APPEND_DATA_ATOMIC
 (Z.lor SSH_FXF_TEXT_MODE
 (Z.lor SSH_FXF_NOFOLLOW
        SSH_FXF_DELETE_ON_CLOSE)))).

(** The "supported" block of version 5: attribute mask, attribute bits,
    open flags, access mask, max-read-size, extension names. *)
Definition supported_block (max_read_size : Z) (names : list string) : list Z :=
  enc_uint32 supported_attribute_mask ++ enc_uint32 0
  ++ enc_uint32 supported_open_flags ++ enc_uint32 0xFFFFFFFF
  ++ enc_uint32 max_read_size
  ++ List.concat (map enc_string names).

(** The "supported2" block of version 6: as above with the larger set of
    open flags, then two 16-bit block vectors, the count of attribute
    extensions, and the count and names of the extensions. *)
Definition supported2_block (max_read_size : Z) (names : list string) : list Z :=
  enc_uint32 supported_attribute_mask ++ enc_uint32 0
  ++ enc_uint32 supported2_open_flags ++ enc_uint32 0xFFFFFFFF
  ++ enc_uint32 max_read_size
  ++ enc_uint16 0 ++ enc_uint16 0 ++ enc_uint32 0
  ++ enc_uint32 (Z.of_nat (length names))
  ++ List.concat (map enc_string names).

(** The "vendor-id" block: vendor name, product name, product version,
    build number 0. *)
Definition vendor_id_block : list Z :=
  enc_string "Green End" ++ enc_string "Green End SFTP Server"
  ++ enc_string VERSION ++ enc_uint64 0.

(** The extensions the spec lists for a negotiated version [v], given
    the reverse-symlink flag and the extension names of the table. *)
Definition advertised (v : Z) (rs : bool) (names : list string)
  : list (string * list Z) :=
  (if v >=? 4 then [("newline", bytes_of_string newline)] else [])
  ++ (if v =? 5 then [("supported", supported_block 0 names)] else [])
  ++ (if v =? 6
      then [("supported2", supported2_block 0 names);
            ("versions", bytes_of_string "3,4,5,6")]
      else [])
  ++ [("vendor-id", vendor_id_block);
      ("symlink-order@rjk.greenend.org.uk",
       bytes_of_string (if rs then "targetpath-linkpath"
                        else "linkpath-targetpath"))]
  ++ (if v =? 6
      then [("link-order@rjk.greenend.org.uk",
             bytes_of_string "linkpath-targetpath")]
      else []).

(** Symbolic execution of the assembly statements: each equation runs
    the first statement of a sequence on a state whose buffer is known. *)
Lemma bind_assoc {A B C} (m : M A) (f : A -> M B) (g : B -> M C) st :
  bind (bind m f) g st = bind m (fun x => bind (f x) g) st.
Proof. unfold bind. destruct (m st). reflexivity. Qed.

Lemma run_ret {A B} (a : A) (k : A -> M B) st : bind (ret a) k st = k a st.
Proof. reflexivity. Qed.

Lemma run_send_begin {A} (k : unit -> M A) st :
  bind send_begin k st = k tt (set_buffer [] st).
Proof. reflexivity. Qed.

Lemma run_send_uint8 {A} v (k : unit -> M A) b st :
  bind (send_uint8 v) k (set_buffer b st) = k tt (set_buffer (b ++ enc_uint8 v) st).
Proof. reflexivity. Qed.

Lemma run_send_uint16 {A} v (k : unit -> M A) b st :
  bind (send_uint16 v) k (set_buffer b st) = k tt (set_buffer (b ++ enc_uint16 v) st).
Proof. reflexivity. Qed.

Lemma run_send_uint32 {A} v (k : unit -> M A) b st :
  bind (send_uint32 v) k (set_buffer b st) = k tt (set_buffer (b ++ enc_uint32 v) st).
Proof. reflexivity. Qed.

Lemma run_send_uint64 {A} v (k : unit -> M A) b st :
  bind (send_uint64 v) k (set_buffer b st) = k tt (set_buffer (b ++ enc_uint64 v) st).
Proof. reflexivity. Qed.

Lemma run_send_string {A} s (k : unit -> M A) b st :
  bind (send_string s) k (set_buffer b st) = k tt (set_buffer (b ++ enc_string s) st).
Proof. reflexivity. Qed.

Lemma run_protocol_version {A} (k : Z -> M A) b st :
  bind protocol_version k (set_buffer b st)
  = k (version (active st)) (set_buffer b st).
Proof. reflexivity. Qed.

Lemma run_protocol_extensions {A} (k : list string -> M A) b st :
  bind protocol_extensions k (set_buffer b st)
  = k (extensions (active st)) (set_buffer b st).
Proof. reflexivity. Qed.

Lemma run_reverse_symlink {A} (k : bool -> M A) b st :
  bind (fun st => (reverse_symlink st, st)) k (set_buffer b st)
  = k (reverse_symlink st) (set_buffer b st).
Proof. reflexivity. Qed.

Lemma run_for_each_send_string {A} names (k : unit -> M A) b st :
  bind (for_each names send_string) k (set_buffer b st)
  = k tt (set_buffer (b ++ List.concat (map enc_string names)) st).
Proof.
  revert b. induction names as [|n names IH]; intros b;
    cbn [for_each map List.concat].
  - rewrite app_nil_r. reflexivity.
  - rewrite bind_assoc, run_send_string, IH, <- app_assoc. reflexivity.
Qed.

Lemma run_send_sub_begin {A} (k : nat -> M A) b st :
  bind send_sub_begin k (set_buffer b st)
  = k (length (b ++ [0; 0; 0; 0])) (set_buffer (b ++ [0; 0; 0; 0]) st).
Proof. reflexivity. Qed.

Lemma run_send_sub_end {A} offset (k : unit -> M A) b st :
  bind (send_sub_end offset) k (set_buffer b st)
  = k tt (set_buffer (firstn (offset - 4) b
                      ++ enc_uint32 (Z.of_nat (length b - offset))
                      ++ skipn offset b) st).
Proof. reflexivity. Qed.

Lemma run_send_end b st : send_end (set_buffer b st) = (tt, emit b st).
Proof. reflexivity. Qed.

(** Back-patching the length reserved by "begin sub" turns what was
    appended since into a string on the wire. *)
Lemma sub_block_patched (b body : list Z) :
  firstn (length (b ++ [0; 0; 0; 0]) - 4) ((b ++ [0; 0; 0; 0]) ++ body)
  ++ enc_uint32 (Z.of_nat (length ((b ++ [0; 0; 0; 0]) ++ body)
                           - length (b ++ [0; 0; 0; 0])))
  ++ skipn (length (b ++ [0; 0; 0; 0])) ((b ++ [0; 0; 0; 0]) ++ body)
  = b ++ enc_data body.
Proof.
  set (hole := b ++ [0; 0; 0; 0]).
  assert (Hlen : length hole = (length b + 4)%nat)
    by (unfold hole; rewrite length_app; reflexivity).
  rewrite length_app.
  replace (length hole + length body - length hole)%nat with (length body) by lia.
  rewrite skipn_app, skipn_all, Nat.sub_diag. cbn [skipn app].
  rewrite firstn_app.
  replace (length hole - 4 - length hole)%nat with 0%nat by lia.
  cbn [firstn]. rewrite app_nil_r.
  rewrite Hlen. replace (length b + 4 - 4)%nat with (length b + 0)%nat by lia.
  unfold hole. rewrite firstn_app_2. cbn [firstn]. rewrite app_nil_r.
  reflexivity.
Qed.

Ltac run_statement :=
  first
    [ rewrite run_send_uint8 | rewrite run_send_uint16
    | rewrite run_send_uint32 | rewrite run_send_uint64
    | rewrite run_send_string | rewrite run_for_each_send_string
    | rewrite run_protocol_version | rewrite run_protocol_extensions
    | rewrite run_reverse_symlink | rewrite run_ret | rewrite bind_assoc
    | rewrite run_send_sub_begin;
      match goal with
      | |- context [length (?b ++ [0; 0; 0; 0])] =>
          let hole := fresh "hole" in
          remember (b ++ [0; 0; 0; 0]) as hole
      end
    | rewrite run_send_sub_end, <- ?app_assoc;
      match goal with
      | Hhole : ?hole = _ ++ [0; 0; 0; 0] |- _ =>
          subst hole; rewrite sub_block_patched
      end ];
  cbv beta.

Ltac decide_version :=
  cbv [when Z.geb Z.eqb Z.ltb Z.compare Pos.compare Pos.compare_cont Pos.eqb].

(** [send_version] assembles the VERSION response of the active table. *)
Lemma send_version_spec st v :
  version (active st) = v -> 3 <= v <= 6 ->
  send_version st
  = (tt, emit (version_response v
                 (advertised v (reverse_symlink st) (extensions (active st))))
              st).
Proof.
  intros Hv Hrange.
  unfold send_version. rewrite run_send_begin. cbv beta.
  assert (Hcases : v = 3 \/ v = 4 \/ v = 5 \/ v = 6) by lia.
  destruct (reverse_symlink st) eqn:Hrs;
    destruct Hcases as [-> | [-> | [-> | ->]]];
    repeat (first [ rewrite Hv; decide_version
                  | rewrite Hrs
                  | run_statement ]);
    rewrite run_send_end; do 2 f_equal;
    unfold version_response, advertised, supported_block, supported2_block,
      vendor_id_block, supported_attribute_mask, supported_open_flags,
      supported2_open_flags, enc_string;
    decide_version;
    cbn [List.concat map app enc_extension fst snd];
    rewrite <- ?app_assoc, ?app_nil_r; reflexivity.
Qed.

(** ** Version negotiation *)

(** Statements that touch nothing but the response buffer and the
    flushed responses. *)
Definition keeps_globals {A} (m : M A) : Prop :=
  forall st,
    protocol (snd (m st)) = protocol st
    /\ reverse_symlink (snd (m st)) = reverse_symlink st
    /\ workqueue (snd (m st)) = workqueue st
    /\ errno (snd (m st)) = errno st.

Lemma keeps_bind {A B} (m : M A) (f : A -> M B) :
  keeps_globals m -> (forall a, keeps_globals (f a)) -> keeps_globals (bind m f).
Proof.
  intros Hm Hf st. unfold bind. specialize (Hm st).
  destruct (m st) as [a st1]. specialize (Hf a st1). cbn [snd] in Hm.
  destruct Hm as (H1 & H2 & H3 & H4).
  rewrite <- H1, <- H2, <- H3, <- H4. exact Hf.
Qed.

Lemma keeps_ret {A} (a : A) : keeps_globals (ret a).
Proof. intros st. now repeat split. Qed.

Lemma keeps_send_bytes bs : keeps_globals (send_bytes bs).
Proof. intros st. now repeat split. Qed.

Lemma keeps_send_begin : keeps_globals send_begin.
Proof. intros st. now repeat split. Qed.

Lemma keeps_send_end : keeps_globals send_end.
Proof. intros st. now repeat split. Qed.

Lemma keeps_send_sub_begin : keeps_globals send_sub_begin.
Proof. intros st. now repeat split. Qed.

Lemma keeps_send_sub_end offset : keeps_globals (send_sub_end offset).
Proof. intros st. now repeat split. Qed.

Lemma keeps_read {A} (f : server -> A) : keeps_globals (fun st => (f st, st)).
Proof. intros st. now repeat split. Qed.

Lemma keeps_when b m : keeps_globals m -> keeps_globals (when b m).
Proof. destruct b; [trivial | intros _; apply keeps_ret]. Qed.

Lemma keeps_if {A} (b : bool) (m1 m2 : M A) :
  keeps_globals m1 -> keeps_globals m2 -> keeps_globals (if b then m1 else m2).
Proof. now destruct b. Qed.

Lemma keeps_for_each {A} (xs : list A) body :
  (forall x, keeps_globals (body x)) -> keeps_globals (for_each xs body).
Proof.
  intros Hbody. induction xs; cbn [for_each];
    [apply keeps_ret | apply keeps_bind; auto].
Qed.

Lemma keeps_send_version : keeps_globals send_version.
Proof.
  unfold send_version, protocol_version, protocol_extensions,
    send_uint8, send_uint16, send_uint32, send_uint64, send_string.
  repeat first
    [ apply keeps_bind; [|intros ?]
    | apply keeps_when
    | apply keeps_if
    | apply keeps_for_each; intros ?
    | apply keeps_send_bytes | apply keeps_send_begin | apply keeps_send_end
    | apply keeps_send_sub_begin | apply keeps_send_sub_end
    | apply keeps_read | apply keeps_ret ].
Qed.

(** The table that INIT activates for a proposed version, in the spec's
    words: 3, 4 and 5 their own table, anything from 6 on the table of
    version 6. *)
Definition negotiated (v : Z) : protocol_ref :=
  if v =? 3 then ref_sftpv3
  else if v =? 4 then ref_sftpv4
  else if v =? 5 then ref_sftpv5
  else ref_sftpv6.

(** The reverse-symlink flag after a successful INIT. *)
Definition negotiated_reverse_symlink (v : Z) (st : server) : bool :=
  if v =? 3 then (if REVERSE_SYMLINK then true else reverse_symlink st)
  else reverse_symlink st.

(** The state in which [sftp_init] starts the VERSION response. *)
Definition negotiation (v : Z) (st : server) : server :=
  set_reverse_symlink (negotiated_reverse_symlink v st)
    (set_protocol (negotiated v) st).

Lemma select_protocol_unsupported v :
  v = 0 \/ v = 1 \/ v = 2 -> select_protocol v = None.
Proof. intros [-> | [-> | ->]]; reflexivity. Qed.

Lemma select_protocol_supported v :
  v <> 0 -> v <> 1 -> v <> 2 ->
  exists assign,
    select_protocol v = Some assign
    /\ forall st, assign st = (tt, negotiation v st).
Proof.
  intros H0 H1 H2. unfold select_protocol, negotiation, negotiated,
    negotiated_reverse_symlink.
  destruct (Z.eqb_spec v 0); [lia|]. destruct (Z.eqb_spec v 1); [lia|].
  destruct (Z.eqb_spec v 2); [lia|]. cbn [orb].
  destruct (Z.eqb_spec v 3);
    [|destruct (Z.eqb_spec v 4); [|destruct (Z.eqb_spec v 5)]];
    eexists; (split; [reflexivity|]); intros st;
    destruct st; try destruct REVERSE_SYMLINK; reflexivity.
Qed.

(** [sftp_init] on a server that is already initialized. *)
Lemma sftp_init_again job st :
  protocol st <> ref_sftppreinit -> sftp_init job st = (SSH_FX_FAILURE, st).
Proof.
  intros Hp. unfold sftp_init, bind.
  destruct (protocol st); [contradiction| | | |]; reflexivity.
Qed.

(** [sftp_init] when the version field cannot be decoded. *)
Lemma sftp_init_truncated job st rc v job' :
  protocol st = ref_sftppreinit ->
  parse_uint32 job 0 = (rc, v, job') -> rc <> SSH_FX_OK ->
  sftp_init job st = (rc, st).
Proof.
  intros Hp Hparse Hrc. unfold sftp_init, bind. rewrite Hp, Hparse.
  cbn [protocol_ref_eqb negb].
  destruct (Z.eqb_spec rc SSH_FX_OK); [contradiction|]. reflexivity.
Qed.

(** [sftp_init] for the versions it refuses. *)
Lemma sftp_init_unsupported job st v job' :
  protocol st = ref_sftppreinit ->
  parse_uint32 job 0 = (SSH_FX_OK, v, job') ->
  v = 0 \/ v = 1 \/ v = 2 ->
  sftp_init job st = (SSH_FX_OP_UNSUPPORTED, st).
Proof.
  intros Hp Hparse Hv. unfold sftp_init, bind. rewrite Hp, Hparse.
  cbn [protocol_ref_eqb negb]. rewrite Z.eqb_refl. cbn [negb].
  rewrite select_protocol_unsupported by assumption. reflexivity.
Qed.

(** [sftp_init] for the versions it accepts: the table is activated, the
    VERSION response is sent, and the pool is created unless the active
    table is that of version 6 or later. *)
Lemma sftp_init_supported job st v job' :
  protocol st = ref_sftppreinit ->
  parse_uint32 job 0 = (SSH_FX_OK, v, job') ->
  v <> 0 -> v <> 1 -> v <> 2 ->
  sftp_init job st
  = (HANDLER_RESPONDED,
     let st1 := snd (send_version (negotiation v st)) in
     if version (active st1) <? 6
     then set_workqueue (Some {| nthreads := 4; jobs := [] |}) st1
     else st1).
Proof.
  intros Hp Hparse H0 H1 H2. unfold sftp_init, bind at 1. rewrite Hp, Hparse.
  cbn [protocol_ref_eqb negb]. rewrite Z.eqb_refl. cbn [negb].
  destruct (select_protocol_supported v H0 H1 H2) as (assign & -> & Hassign).
  unfold bind. rewrite Hassign.
  destruct (send_version (negotiation v st)) as [[] st1] eqn:Hsv.
  cbn [snd protocol_version]. unfold active.
  destruct (version (deref (protocol st1)) <? 6); reflexivity.
Qed.

Lemma parse_uint32_status job ur :
  (exists v job', parse_uint32 job ur = (SSH_FX_OK, v, job'))
  \/ parse_uint32 job ur = (SSH_FX_BAD_MESSAGE, ur, job).
Proof.
  unfold parse_uint32.
  destruct (ptr job) as [|b3 [|b2 [|b1 [|b0 rest]]]]; eauto.
Qed.

Lemma negotiated_not_preinit v : negotiated v <> ref_sftppreinit.
Proof.
  unfold negotiated.
  destruct (v =? 3); [|destruct (v =? 4); [|destruct (v =? 5)]]; discriminate.
Qed.

(** The globals after an accepted INIT. *)
Lemma sftp_init_supported_globals job st v job' :
  protocol st = ref_sftppreinit ->
  parse_uint32 job 0 = (SSH_FX_OK, v, job') ->
  v <> 0 -> v <> 1 -> v <> 2 ->
  fst (sftp_init job st) = HANDLER_RESPONDED
  /\ protocol (snd (sftp_init job st)) = negotiated v
  /\ reverse_symlink (snd (sftp_init job st)) = negotiated_reverse_symlink v st.
Proof.
  intros Hp Hparse H0 H1 H2.
  rewrite (sftp_init_supported job st v job') by assumption.
  cbn [fst snd]. split; [reflexivity|].
  destruct (keeps_send_version (negotiation v st)) as (Hq & Hr & _).
  destruct (version (active (snd (send_version (negotiation v st)))) <? 6);
    cbn [set_workqueue protocol reverse_symlink]; rewrite ?Hq, ?Hr;
    split; reflexivity.
Qed.

(** One INIT changes the active table only if it was the pre-init table
    and is not any more. *)
Lemma sftp_init_step job st :
  protocol (snd (sftp_init job st)) = protocol st
  \/ (protocol st = ref_sftppreinit
      /\ protocol (snd (sftp_init job st)) <> ref_sftppreinit).
Proof.
  clear strerror.
  destruct (protocol st) eqn:Hp;
    try (left; rewrite sftp_init_again by (rewrite Hp; discriminate);
         cbn [snd]; now rewrite Hp).
  destruct (parse_uint32_status job 0) as [(v & job' & Hparse)|Hparse].
  - destruct (Z.eq_dec v 0) as [H0|H0];
      [|destruct (Z.eq_dec v 1) as [H1|H1];
        [|destruct (Z.eq_dec v 2) as [H2|H2]]];
      try (left; rewrite (sftp_init_unsupported job st v job') by tauto;
           cbn [snd]; now rewrite Hp).
    right. split; [reflexivity|].
    destruct (sftp_init_supported_globals job st v job') as (_ & -> & _);
      auto using negotiated_not_preinit.
  - left. rewrite (sftp_init_truncated job st _ _ _ Hp Hparse) by discriminate.
    cbn [snd]. now rewrite Hp.
Qed.

(** How often the active table changes along a trace. *)
Fixpoint advances (trace : list protocol_ref) : nat :=
  match trace with
  | p :: (q :: _) as trace' =>
      (if protocol_ref_eqb p q then 0 else 1) + advances trace'
  | _ => 0
  end.

Lemma protocol_ref_eqb_refl p : protocol_ref_eqb p p = true.
Proof. now destruct p. Qed.

Lemma advances_cons p q trace :
  advances (p :: q :: trace)
  = ((if protocol_ref_eqb p q then 0 else 1) + advances (q :: trace))%nat.
Proof. reflexivity. Qed.

Section Trace.

(** A step of the server that moves the active table only away from the
    pre-init table. *)
Variable A : Type.
Variable step : A -> server -> server.
Hypothesis step_once :
  forall x st,
    protocol (step x st) = protocol st
    \/ (protocol st = ref_sftppreinit
        /\ protocol (step x st) <> ref_sftppreinit).

(** The active table before each of a sequence of steps, and after the
    last. *)
Fixpoint protocol_trace (xs : list A) (st : server) : list protocol_ref :=
  match xs with
  | [] => [protocol st]
  | x :: xs' => protocol st :: protocol_trace xs' (step x st)
  end.

Lemma protocol_trace_head xs st :
  exists rest, protocol_trace xs st = protocol st :: rest.
Proof using Type. destruct xs; cbn [protocol_trace]; eauto. Qed.

Lemma protocol_trace_settled xs st :
  protocol st <> ref_sftppreinit -> advances (protocol_trace xs st) = 0%nat.
Proof using step_once.
  revert st. induction xs as [|x xs IH]; intros st Hp; [reflexivity|].
  cbn [protocol_trace].
  assert (Hsame : protocol (step x st) = protocol st)
    by (destruct (step_once x st) as [H|[H _]]; [exact H | contradiction]).
  assert (Hp' : protocol (step x st) <> ref_sftppreinit) by (now rewrite Hsame).
  specialize (IH (step x st) Hp').
  destruct (protocol_trace_head xs (step x st)) as [rest Hrest].
  rewrite Hrest in *. rewrite advances_cons, Hsame, protocol_ref_eqb_refl.
  rewrite Hsame in IH. exact IH.
Qed.

Lemma protocol_trace_advances xs st :
  (advances (protocol_trace xs st) <= 1)%nat.
Proof using step_once.
  revert st. induction xs as [|x xs IH]; intros st; [cbn; lia|].
  cbn [protocol_trace].
  destruct (protocol_trace_head xs (step x st)) as [rest Hrest].
  destruct (step_once x st) as [Hsame|[Hpre Hpost]].
  - specialize (IH (step x st)). rewrite Hrest in *.
    rewrite advances_cons. rewrite Hsame in *.
    rewrite protocol_ref_eqb_refl. exact IH.
  - pose proof (protocol_trace_settled xs _ Hpost) as Hzero.
    rewrite Hrest in *. rewrite advances_cons, Hzero.
    destruct (protocol_ref_eqb _ _); lia.
Qed.

End Trace.

(** The active table along a sequence of INIT requests. *)
Definition init_trace : list sftpjob -> server -> list protocol_ref :=
  protocol_trace sftpjob (fun job st => snd (sftp_init job st)).

(** The tables of the four versions carry their version number. *)
Definition tables_versioned : Prop :=
  version sftpv3 = 3 /\ version sftpv4 = 4
  /\ version sftpv5 = 5 /\ version sftpv6 = 6.

Lemma negotiated_version v :
  tables_versioned -> 3 <= v ->
  version (deref (negotiated v)) = Z.min v 6.
Proof.
  intros (H3 & H4 & H5 & H6) Hv. unfold negotiated.
  destruct (Z.eqb_spec v 3); [subst; exact H3|].
  destruct (Z.eqb_spec v 4); [subst; exact H4|].
  destruct (Z.eqb_spec v 5); [subst; exact H5|].
  cbn [deref]. rewrite H6. lia.
Qed.

(** The state after an accepted INIT, in full. *)
Lemma sftp_init_negotiates job st v job' :
  tables_versioned ->
  protocol st = ref_sftppreinit ->
  parse_uint32 job 0 = (SSH_FX_OK, v, job') ->
  3 <= v ->
  let st1 := negotiation v st in
  let st2 := emit (version_response (Z.min v 6)
                     (advertised (Z.min v 6) (reverse_symlink st1)
                        (extensions (active st1)))) st1 in
  sftp_init job st
  = (HANDLER_RESPONDED,
     if Z.min v 6 <? 6
     then set_workqueue (Some {| nthreads := 4; jobs := [] |}) st2
     else st2).
Proof.
  intros Htab Hp Hparse Hv st1 st2.
  rewrite (sftp_init_supported job st v job') by (assumption || lia).
  assert (Hver : version (active st1) = Z.min v 6)
    by (apply negotiated_version; assumption).
  fold st1. rewrite (send_version_spec st1 (Z.min v 6)) by (assumption || lia).
  cbn [snd]. fold st2.
  replace (version (active st2)) with (Z.min v 6) by (symmetry; exact Hver).
  reflexivity.
Qed.

(** What each version advertises. *)
Lemma advertised_by_version (rs : bool) (names : list string) :
  let vendor := ("vendor-id", vendor_id_block) in
  let symlink := ("symlink-order@rjk.greenend.org.uk",
                  bytes_of_string (if rs then "targetpath-linkpath"
                                   else "linkpath-targetpath")) in
  let newline_ext := ("newline", bytes_of_string newline) in
  advertised 3 rs names = [vendor; symlink]
  /\ advertised 4 rs names = [newline_ext; vendor; symlink]
  /\ advertised 5 rs names
     = [newline_ext; ("supported", supported_block 0 names); vendor; symlink]
  /\ advertised 6 rs names
     = [newline_ext; ("supported2", supported2_block 0 names);
        ("versions", bytes_of_string "3,4,5,6"); vendor; symlink;
        ("link-order@rjk.greenend.org.uk",
         bytes_of_string "linkpath-targetpath")].
Proof. repeat split. Qed.

(** C9.  The VERSION response of an accepted INIT carries the type byte,
    the negotiated version [n] (the proposed one, at most 6) and exactly
    the extensions of that version: "newline" with the value of one
    line feed from version 4 on; the "supported" block for version 5,
    the "supported2" block and "versions" = "3,4,5,6" for version 6,
    both blocks with max-read-size 0; for every version the "vendor-id"
    block and "symlink-order@rjk.greenend.org.uk", whose value follows
    the reverse-symlink flag; and for version 6
    "link-order@rjk.greenend.org.uk" = "linkpath-targetpath". *)
Theorem version_response_extensions job st v job' :
  tables_versioned ->
  protocol st = ref_sftppreinit ->
  parse_uint32 job 0 = (SSH_FX_OK, v, job') ->
  3 <= v ->
  let n := Z.min v 6 in
  let st' := snd (sftp_init job st) in
  let rs := reverse_symlink st' in
  let names := extensions (active st') in
  let vendor := ("vendor-id", vendor_id_block) in
  let symlink := ("symlink-order@rjk.greenend.org.uk",
                  bytes_of_string (if rs then "targetpath-linkpath"
                                   else "linkpath-targetpath")) in
  let newline_ext := ("newline", bytes_of_string newline) in
  version (active st') = n
  /\ output st'
     = output st
       ++ [version_response n
             ((if n >=? 4 then [newline_ext] else [])
              ++ (if n =? 5 then [("supported", supported_block 0 names)]
                  else [])
              ++ (if n =? 6
                  then [("supported2", supported2_block 0 names);
                        ("versions", bytes_of_string "3,4,5,6")]
                  else [])
              ++ [vendor; symlink]
              ++ (if n =? 6
                  then [("link-order@rjk.greenend.org.uk",
                         bytes_of_string "linkpath-targetpath")]
                  else []))].
Proof.
  intros Htab Hp Hparse Hv n st' rs names vendor symlink newline_ext.
  pose proof (sftp_init_negotiates job st v job' Htab Hp Hparse Hv) as Hinit.
  cbv zeta in Hinit. fold n in Hinit.
  assert (Hver : version (active (negotiation v st)) = n)
    by (apply negotiated_version; assumption).
  subst newline_ext symlink vendor names rs st'. rewrite Hinit. cbn [snd].
  destruct (n <? 6); (split; [exact Hver | reflexivity]).
Qed.

(** ** The dispatch engine *)

Lemma locate_eq cmds ty l r :
  locate cmds ty l r
  = if l <=? r then
      match nth_error cmds (Z.to_nat (Z.quot (l + r) 2)) with
      | None => None
      | Some c =>
          if ty <? type c then locate cmds ty l (Z.quot (l + r) 2 - 1)
          else if ty >? type c then locate cmds ty (Z.quot (l + r) 2 + 1) r
          else Some c
      end
    else None.
Proof.
  rewrite locate_equation_1.
  destruct (Z_le_gt_dec l r) as [Hle|Hgt]; cbn.
  - destruct (Z.leb_spec l r); [reflexivity | lia].
  - destruct (Z.leb_spec l r); [lia | reflexivity].
Qed.

Lemma midpoint_between l r : l <= r -> l <= Z.quot (l + r) 2 <= r.
Proof.
  intros Hle. pose proof (Z.quot_rem' (l + r) 2).
  pose proof (Z.rem_bound_abs (l + r) 2). lia.
Qed.

(** What the search returns is an entry of the table with the type
    looked for. *)
Lemma locate_sound cmds ty c :
  forall n l r,
    (Z.to_nat (r - l + 1) <= n)%nat ->
    locate cmds ty l r = Some c -> type c = ty /\ In c cmds.
Proof.
  induction n as [|n IH]; intros l r Hn; rewrite locate_eq;
    destruct (Z.leb_spec l r) as [Hle|Hgt]; try discriminate; [lia|].
  pose proof (midpoint_between l r Hle) as Hm.
  destruct (nth_error cmds (Z.to_nat (Z.quot (l + r) 2))) as [cm|] eqn:Hnth;
    [|discriminate].
  destruct (Z.ltb_spec ty (type cm)); [apply IH; lia|].
  destruct (Z.gtb_spec ty (type cm)); [apply IH; lia|].
  intros Hc. inversion Hc; subst. split; [lia|].
  eapply nth_error_In; eassumption.
Qed.

(** A type that no entry has is not found. *)
Lemma locate_absent cmds ty l r :
  (forall c, In c cmds -> type c <> ty) -> locate cmds ty l r = None.
Proof.
  intros Habsent. destruct (locate cmds ty l r) as [c|] eqn:Hloc; [|reflexivity].
  destruct (locate_sound cmds ty c _ l r (Nat.le_refl _) Hloc) as [Hty Hin].
  exfalso. exact (Habsent c Hin Hty).
Qed.

(** The command array is sorted by type. *)
Definition sorted_by_type (cmds : list sftpcmd) : Prop :=
  StronglySorted (fun a b => type a < type b) cmds.

Lemma sorted_by_type_nth cmds :
  sorted_by_type cmds ->
  forall i j a b,
    (i < j)%nat -> nth_error cmds i = Some a -> nth_error cmds j = Some b ->
    type a < type b.
Proof.
  induction 1 as [|c cmds Hsorted IH Hall]; intros i j a b Hij Ha Hb.
  - destruct i; discriminate.
  - destruct j as [|j]; [lia|]. cbn [nth_error] in Hb.
    destruct i as [|i]; cbn [nth_error] in Ha.
    + inversion Ha; subst. rewrite Forall_forall in Hall.
      apply Hall. eapply nth_error_In; eassumption.
    + apply (IH i j); [lia | assumption | assumption].
Qed.

(** In a sorted array the search finds the entry of every type that
    occurs between its bounds. *)
Lemma locate_complete cmds c k :
  sorted_by_type cmds ->
  nth_error cmds k = Some c ->
  forall n l r,
    (Z.to_nat (r - l + 1) <= n)%nat ->
    0 <= l -> r < Z.of_nat (length cmds) -> l <= Z.of_nat k <= r ->
    locate cmds (type c) l r = Some c.
Proof.
  intros Hsorted Hk. induction n as [|n IH]; intros l r Hn Hl Hr Hin; [lia|].
  rewrite locate_eq. destruct (Z.leb_spec l r) as [Hle|Hgt]; [|lia].
  pose proof (midpoint_between l r Hle) as Hm.
  set (m := Z.quot (l + r) 2) in *.
  destruct (nth_error cmds (Z.to_nat m)) as [cm|] eqn:Hnth.
  2:{ apply nth_error_None in Hnth. lia. }
  destruct (Nat.lt_trichotomy k (Z.to_nat m)) as [Hlt|[Heq|Hgt]].
  - pose proof (sorted_by_type_nth cmds Hsorted _ _ _ _ Hlt Hk Hnth).
    destruct (Z.ltb_spec (type c) (type cm)); [|lia].
    apply IH; lia.
  - subst k. rewrite Hk in Hnth. inversion Hnth; subst.
    rewrite Z.ltb_irrefl. unfold Z.gtb. rewrite Z.compare_refl. reflexivity.
  - pose proof (sorted_by_type_nth cmds Hsorted _ _ _ _ Hgt Hnth Hk).
    destruct (Z.ltb_spec (type c) (type cm)); [lia|].
    destruct (Z.gtb_spec (type c) (type cm)); [|lia].
    apply IH; lia.
Qed.

Lemma locate_present cmds c :
  sorted_by_type cmds -> In c cmds ->
  locate cmds (type c) 0 (Z.of_nat (length cmds) - 1) = Some c.
Proof.
  intros Hsorted Hin. apply In_nth_error in Hin. destruct Hin as [k Hk].
  assert (k < length cmds)%nat by (apply nth_error_Some; congruence).
  apply (locate_complete cmds c k Hsorted Hk _ _ _ (Nat.le_refl _)); lia.
Qed.

(** The head of a request as the spec describes it: nothing at all, a
    type whose id field is missing or cut short, or a type with its id
    (INIT has none, its id stays 0) and the payload that follows. *)
Inductive request_head : Type :=
| head_empty
| head_missing_id (ty : Z) (rest : list Z)
| head_request (ty : Z) (request_id : Z) (payload : list Z).

Definition parse_head (bytes : list Z) : request_head :=
  match bytes with
  | [] => head_empty
  | ty :: rest =>
      if ty =? SSH_FXP_INIT then head_request ty 0 rest
      else match rest with
           | b3 :: b2 :: b1 :: b0 :: payload =>
               head_request ty (be_value [b3; b2; b1; b0]) payload
           | _ => head_missing_id ty rest
           end
  end.

(** The id of a request: that of its id field, 0 when it has none. *)
Definition request_id (bytes : list Z) : Z :=
  match parse_head bytes with
  | head_request _ rid _ => rid
  | _ => 0
  end.

(** The response to the handler's status. *)
Definition respond (job : sftpjob) (status : Z) : M unit :=
  if status =? HANDLER_RESPONDED then ret tt else send_status job status None.

(** [process_sftpjob], by the head of the request. *)
Lemma process_sftpjob_eq jv st :
  process_sftpjob jv st
  = match parse_head (data jv) with
    | head_empty =>
        (send_status {| data := data jv; id := 0; ptr := [] |}
           SSH_FX_BAD_MESSAGE (Some "empty request") ;;
         done 0) st
    | head_missing_id ty rest =>
        (send_status {| data := data jv; id := 0; ptr := rest |}
           SSH_FX_BAD_MESSAGE (Some "missing ID field") ;;
         done ty) st
    | head_request ty rid payload =>
        let job := {| data := data jv; id := rid; ptr := payload |} in
        match locate (commands (active st)) ty 0 (ncommands (active st) - 1) with
        | Some c =>
            (status <- run_handler (handler c) job ;;
             respond job status ;;
             done ty) st
        | None =>
            (send_status job SSH_FX_OP_UNSUPPORTED None ;; done ty) st
        end
    end.
Proof.
  unfold process_sftpjob, parse_head. cbn [ptr data id].
  destruct (data jv) as [|ty rest] eqn:Hdata; [reflexivity|].
  destruct (Z.eqb_spec ty SSH_FXP_INIT) as [->|Hty]; cbn [negb].
  - cbn [ptr data id]. rewrite (Z.eqb_refl SSH_FX_OK). cbn [negb].
    unfold bind at 1. fold (active st).
    destruct (locate _ _ _ _); reflexivity.
  - unfold parse_uint32. cbn [ptr data id].
    destruct rest as [|b3 [|b2 [|b1 [|b0 payload]]]]; try reflexivity.
    cbn [ptr data id]. rewrite (Z.eqb_refl SSH_FX_OK). cbn [negb].
    unfold bind at 1. fold (active st).
    destruct (locate _ _ _ _); reflexivity.
Qed.

Definition pool_of_four : option queue := Some {| nthreads := 4; jobs := [] |}.

(** The code after [done]. *)
Lemma done_eq ty st :
  done ty st
  = (tt, if negb (ty =? SSH_FXP_INIT)
            && match workqueue st with None => true | Some _ => false end
         then set_workqueue pool_of_four st else st).
Proof.
  unfold done, bind. destruct (negb (ty =? SSH_FXP_INIT)), (workqueue st);
    reflexivity.
Qed.

Lemma done_output ty st : output (snd (done ty st)) = output st.
Proof. rewrite done_eq. cbn [snd]. destruct (_ && _); reflexivity. Qed.

Lemma done_protocol ty st : protocol (snd (done ty st)) = protocol st.
Proof. rewrite done_eq. cbn [snd]. destruct (_ && _); reflexivity. Qed.

(** A statement followed by the code after [done]. *)
Lemma then_done (m : M unit) ty st :
  snd ((m ;; done ty) st) = snd (done ty (snd (m st))).
Proof. unfold bind. destruct (m st). reflexivity. Qed.

Lemma coerce_known st status :
  status <= maxstatus (active st) -> coerce st status = status.
Proof.
  intros Hle. unfold coerce.
  destruct (Z.gtb_spec status (maxstatus (active st))); [lia | reflexivity].
Qed.

Lemma send_status_output job status msg st :
  status <> UINT32_MAX -> status <= maxstatus (active st) ->
  output (snd ((send_status job status msg) st))
  = output st ++ [status_response (id job) status (message_text status msg)].
Proof.
  intros Hs Hle. rewrite send_status_assemble by assumption.
  cbn [snd]. rewrite emit_output, coerce_known by assumption. reflexivity.
Qed.

Lemma send_status_then_done job status msg ty st :
  status <> UINT32_MAX -> status <= maxstatus (active st) ->
  output (snd ((send_status job status msg ;; done ty) st))
  = output st ++ [status_response (id job) status (message_text status msg)].
Proof.
  intros Hs Hle. rewrite then_done, done_output.
  now apply send_status_output.
Qed.

(** C4.  The dispatch engine, job by job.  An empty payload is answered
    with [SSH_FX_BAD_MESSAGE].  Otherwise the first byte is the type;
    for a type other than INIT the 32-bit id is read next, and when it
    cannot be decoded the failure status of the decoder
    ([SSH_FX_BAD_MESSAGE]) is sent.  The type is then searched in the
    command array of the active table: a type that no entry has is
    answered with [SSH_FX_OP_UNSUPPORTED], and in an array sorted by type
    the entry of a type that occurs is found and its handler run.  (The
    active table knows the statuses up to [SSH_FX_OP_UNSUPPORTED], as
    the pre-init table does.) *)
Theorem dispatch_engine jv st :
  SSH_FX_OP_UNSUPPORTED <= maxstatus (active st) ->
  let st' := snd (process_sftpjob jv st) in
  (data jv = [] ->
   output st'
   = output st ++ [status_response 0 SSH_FX_BAD_MESSAGE "empty request"])
  /\ (forall ty rest,
        data jv = ty :: rest -> ty <> SSH_FXP_INIT -> (length rest < 4)%nat ->
        output st'
        = output st
          ++ [status_response 0 SSH_FX_BAD_MESSAGE "missing ID field"])
  /\ (forall ty rest,
        data jv = ty :: rest ->
        ty = SSH_FXP_INIT \/ (4 <= length rest)%nat ->
        (forall c, In c (commands (active st)) -> type c <> ty) ->
        output st'
        = output st
          ++ [status_response (request_id (data jv)) SSH_FX_OP_UNSUPPORTED
                "operation not supported"])
  /\ (forall ty rest c,
        data jv = ty :: rest ->
        ty = SSH_FXP_INIT \/ (4 <= length rest)%nat ->
        sorted_by_type (commands (active st)) ->
        In c (commands (active st)) -> type c = ty ->
        let job := {| data := data jv; id := request_id (data jv);
                      ptr := if ty =? SSH_FXP_INIT then rest
                             else skipn 4 rest |} in
        process_sftpjob jv st
        = (status <- run_handler (handler c) job ;;
           (if status =? HANDLER_RESPONDED then ret tt
            else send_status job status None) ;;
           done ty) st).
Proof.
  intros Hmax st'. subst st'. rewrite process_sftpjob_eq.
  assert (H5 : SSH_FX_BAD_MESSAGE <= maxstatus (active st))
    by (unfold SSH_FX_BAD_MESSAGE, SSH_FX_OP_UNSUPPORTED in *; lia).
  repeat split.
  - intros ->. cbn [parse_head].
    now rewrite send_status_then_done by (assumption || discriminate).
  - intros ty rest -> Hty Hshort. cbn [parse_head].
    destruct (Z.eqb_spec ty SSH_FXP_INIT); [contradiction|].
    destruct rest as [|b3 [|b2 [|b1 [|b0 payload]]]];
      try (cbn [length] in Hshort; lia);
      now rewrite send_status_then_done by (assumption || discriminate).
  - intros ty rest Hdata Hid Habsent. unfold request_id. rewrite Hdata.
    cbn [parse_head].
    destruct (Z.eqb_spec ty SSH_FXP_INIT) as [->|Hty].
    + cbv zeta. unfold ncommands. rewrite locate_absent by assumption.
      now rewrite send_status_then_done by (assumption || discriminate).
    + destruct Hid as [Hid|Hid]; [contradiction|].
      destruct rest as [|b3 [|b2 [|b1 [|b0 payload]]]];
        try (cbn [length] in Hid; lia).
      cbv zeta. unfold ncommands. rewrite locate_absent by assumption.
      now rewrite send_status_then_done by (assumption || discriminate).
  - intros ty rest c Hdata Hid Hsorted Hin Hty. unfold request_id.
    rewrite Hdata. cbn [parse_head]. subst ty.
    destruct (Z.eqb_spec (type c) SSH_FXP_INIT) as [Hinit|Hinit].
    + cbv zeta. unfold ncommands. rewrite locate_present by assumption.
      reflexivity.
    + destruct Hid as [Hid|Hid]; [contradiction|].
      destruct rest as [|b3 [|b2 [|b1 [|b0 payload]]]];
        try (cbn [length] in Hid; lia).
      cbv zeta. unfold ncommands. rewrite locate_present by assumption.
      reflexivity.
Qed.

(** The engine's own answer to a request whose handler returned
    [status]: nothing after [HANDLER_RESPONDED], one STATUS response
    otherwise. *)
Lemma respond_output job status st :
  if status =? HANDLER_RESPONDED
  then output (snd (respond job status st)) = output st
  else exists code text,
         output (snd (respond job status st))
         = output st ++ [status_response (id job) code text].
Proof.
  unfold respond. destruct (status =? HANDLER_RESPONDED); [reflexivity|].
  rewrite send_status_emits. cbn [snd]. rewrite emit_output. eauto.
Qed.

(** C5.  The STATUS response that the engine sends for a request carries
    the id of the request: the value of its id field when the type is
    not INIT and the field decodes, and 0 when there is no id field (an
    empty request, INIT) or it cannot be decoded.  Either no handler
    runs and the engine sends one STATUS response with that id; or the
    handler of an entry of the active table runs on a job with that id,
    and what the engine appends to the handler's output is nothing (the
    handler has responded) or one STATUS response with that id.  The id
    is echoed verbatim: its encoding is the four bytes received. *)
Theorem request_id_echoed jv st :
  let st' := snd (process_sftpjob jv st) in
  let rid := request_id (data jv) in
  ((exists code text,
      output st' = output st ++ [status_response rid code text])
   \/ (exists c job,
         In c (commands (active st)) /\ id job = rid
         /\ let (status, st1) := run_handler (handler c) job st in
            if status =? HANDLER_RESPONDED
            then output st' = output st1
            else exists code text,
                   output st' = output st1 ++ [status_response rid code text]))
  /\ (forall ty b3 b2 b1 b0 payload,
        data jv = ty :: b3 :: b2 :: b1 :: b0 :: payload ->
        ty <> SSH_FXP_INIT ->
        0 <= b3 < 256 -> 0 <= b2 < 256 -> 0 <= b1 < 256 -> 0 <= b0 < 256 ->
        rid = be_value [b3; b2; b1; b0]
        /\ enc_uint32 rid = [b3; b2; b1; b0])
  /\ (forall ty rest,
        data jv = [] \/ data jv = SSH_FXP_INIT :: rest
        \/ (data jv = ty :: rest /\ (length rest < 4)%nat) ->
        rid = 0).
Proof.
  intros st' rid. subst st' rid. split; [|split].
  - rewrite process_sftpjob_eq. unfold request_id.
    destruct (parse_head (data jv)) as [|ty rest|ty rid payload].
    + left. rewrite then_done, done_output, send_status_emits. cbn [snd].
      rewrite emit_output. eauto.
    + left. rewrite then_done, done_output, send_status_emits. cbn [snd].
      rewrite emit_output. eauto.
    + cbv zeta.
      destruct (locate (commands (active st)) ty 0 (ncommands (active st) - 1))
        as [c|] eqn:Hloc.
      * right. exists c, {| data := data jv; id := rid; ptr := payload |}.
        destruct (locate_sound _ _ _ _ _ _ (Nat.le_refl _) Hloc) as [_ Hin].
        split; [exact Hin|]. split; [reflexivity|].
        set (job := {| data := data jv; id := rid; ptr := payload |}).
        assert (Hrun :
          output (snd ((status <- run_handler (handler c) job ;;
                        respond job status ;; done ty) st))
          = output (snd (respond job (fst (run_handler (handler c) job st))
                           (snd (run_handler (handler c) job st))))).
        { unfold bind at 1. destruct (run_handler (handler c) job st).
          cbn [fst snd]. now rewrite then_done, done_output. }
        rewrite Hrun.
        destruct (run_handler (handler c) job st) as [status st1].
        cbn [fst snd]. exact (respond_output job status st1).
      * left. rewrite then_done, done_output, send_status_emits. cbn [snd].
        rewrite emit_output. eauto.
  - intros ty b3 b2 b1 b0 payload Hdata Hty H3 H2 H1 H0.
    unfold request_id. rewrite Hdata. cbn [parse_head].
    destruct (Z.eqb_spec ty SSH_FXP_INIT); [contradiction|].
    split; [reflexivity | now apply enc_uint32_be_value].
  - intros ty rest Hcases. unfold request_id.
    destruct Hcases as [-> | [-> | [-> Hshort]]]; [reflexivity | reflexivity |].
    cbn [parse_head]. destruct (ty =? SSH_FXP_INIT); [reflexivity|].
    destruct rest as [|b3 [|b2 [|b1 [|b0 payload]]]];
      try reflexivity. cbn [length] in Hshort. lia.
Qed.

(** ** The worker pool *)

(** Any request other than INIT that is processed while there is no work
    queue leaves one behind, whatever the active table is, provided its
    handler (if one runs) creates none itself. *)
Lemma pool_created_unless_init jv st ty rest :
  data jv = ty :: rest -> ty <> SSH_FXP_INIT ->
  workqueue (snd (process_sftpjob jv st)) <> None.
Proof.
  intros Hdata Hty. rewrite process_sftpjob_eq, Hdata. cbn [parse_head].
  destruct (Z.eqb_spec ty SSH_FXP_INIT); [contradiction|].
  assert (Hdone : forall st0, workqueue (snd (done ty st0)) <> None).
  { intros st0. rewrite done_eq. cbn [snd].
    destruct (Z.eqb_spec ty SSH_FXP_INIT); [contradiction|]. cbn [negb andb].
    destruct (workqueue st0) eqn:Hwq; [rewrite Hwq|]; discriminate. }
  destruct rest as [|b3 [|b2 [|b1 [|b0 payload]]]];
    try (rewrite then_done; apply Hdone).
  cbv zeta. destruct (locate _ _ _ _).
  - unfold bind at 1. destruct (run_handler _ _ st) as [status st1].
    rewrite then_done. apply Hdone.
  - rewrite then_done. apply Hdone.
Qed.

(** C2, at the input on which the code departs from it: the first
    request of a connection has type 99 and id 1.  The pre-init table
    stays active, the request is answered with [SSH_FX_OP_UNSUPPORTED],
    and when its processing completes the worker pool exists. *)
Theorem pool_created_before_init :
  let st' := snd (process_sftpjob (new_job [99; 0; 0; 0; 1]) initial_server) in
  protocol st' = ref_sftppreinit
  /\ workqueue st' = Some {| nthreads := 4; jobs := [] |}
  /\ output st'
     = [status_response 1 SSH_FX_OP_UNSUPPORTED "operation not supported"].
Proof.
  cbv zeta. rewrite process_sftpjob_eq. cbn [new_job data parse_head].
  change (99 =? SSH_FXP_INIT) with false. cbv iota zeta.
  rewrite locate_absent.
  2:{ intros c [<-|[]]. discriminate. }
  rewrite then_done, done_eq, send_status_assemble by discriminate.
  cbn [snd]. repeat split.
Qed.

(** ** The server loop *)

Lemma sftp_service_loop_eq input st :
  sftp_service_loop input st
  = match do_read 4 input with
    | None => (returned, st)
    | Some (len, input1) =>
        if be_value len =? 0 then (fatal "zero length job", st)
        else match do_read (be_value len) input1 with
             | None => (fatal "read error: unexpected eof", st)
             | Some (bytes, input2) =>
                 sftp_service_loop input2 (exec (serve_job (new_job bytes)) st)
             end
    end.
Proof.
  rewrite sftp_service_loop_equation_1. symmetry.
  remember (inspect (do_read 4 input)) as i eqn:Hi. clear Hi.
  destruct i as [[[len input1]|] e]; rewrite e at 1;
    cbn [sftp_service_loop_unfold_clause_1]; [|reflexivity].
  remember (inspect (be_value len =? 0)) as z eqn:Hz. clear Hz.
  destruct z as [[|] ez]; rewrite ez at 1;
    cbn [sftp_service_loop_unfold_clause_1_clause_2]; [reflexivity|].
  remember (inspect (do_read (be_value len) input1)) as j eqn:Hj. clear Hj.
  destruct j as [[[bytes input2]|] ej]; rewrite ej at 1;
    cbn [sftp_service_loop_unfold_clause_1_clause_2_clause_2]; reflexivity.
Qed.

Lemma do_read_exact (got rest : list Z) :
  do_read (Z.of_nat (length got)) (got ++ rest) = Some (got, rest).
Proof.
  unfold do_read. rewrite Nat2Z.id, length_app.
  destruct (Nat.ltb_spec (length got + length rest) (length got)); [lia|].
  rewrite firstn_app, firstn_all, Nat.sub_diag, skipn_app, skipn_all,
    Nat.sub_diag. cbn [firstn skipn app]. now rewrite app_nil_r.
Qed.

Lemma do_read_header (len rest : list Z) :
  length len = 4%nat -> do_read 4 (len ++ rest) = Some (len, rest).
Proof.
  intros Hlen. change 4 with (Z.of_nat 4). rewrite <- Hlen.
  apply do_read_exact.
Qed.

Lemma do_read_short size (input : list Z) :
  (length input < Z.to_nat size)%nat -> do_read size input = None.
Proof.
  intros Hshort. unfold do_read.
  destruct (Nat.ltb_spec (length input) (Z.to_nat size)); [reflexivity | lia].
Qed.

(** A request the framer accepts: at least one byte, and a length that
    fits the 32-bit length field. *)
Definition well_framed (bytes : list Z) : Prop :=
  bytes <> [] /\ Z.of_nat (length bytes) < 2 ^ 32.

(** The input stream that carries the given requests, one after another. *)
Definition stream (packets : list (list Z)) : list Z :=
  List.concat (map frame packets).

(** The state after the loop has served the given requests. *)
Definition served (packets : list (list Z)) (st : server) : server :=
  fold_left (fun st bytes => exec (serve_job (new_job bytes)) st) packets st.

(** One turn of the loop on a complete request. *)
Lemma sftp_service_loop_request bytes rest st :
  well_framed bytes ->
  sftp_service_loop (frame bytes ++ rest) st
  = sftp_service_loop rest (exec (serve_job (new_job bytes)) st).
Proof.
  intros [Hne Hlen]. rewrite sftp_service_loop_eq.
  unfold frame, enc_data. rewrite <- app_assoc.
  rewrite do_read_header by apply enc_uint32_length.
  rewrite be_value_enc_uint32 by lia.
  destruct (Z.eqb_spec (Z.of_nat (length bytes)) 0) as [Hz|_].
  - destruct bytes; [contradiction | cbn [length] in Hz; lia].
  - now rewrite do_read_exact.
Qed.

Lemma sftp_service_loop_requests packets rest st :
  Forall well_framed packets ->
  sftp_service_loop (stream packets ++ rest) st
  = sftp_service_loop rest (served packets st).
Proof.
  intros Hall. revert st.
  induction Hall as [|bytes packets Hbytes _ IH]; intros st; [reflexivity|].
  unfold stream in *. cbn [map List.concat served fold_left].
  rewrite <- app_assoc, sftp_service_loop_request by assumption.
  apply IH.
Qed.

(** C8.  After any requests served so far: the end of the input at a
    packet boundary ends the loop and [sftp_service] returns; a length
    field of zero is fatal; and so is an input that ends before the
    declared number of bytes has arrived.  In both fatal cases the state
    is the one left by the requests before, so nothing is sent for the
    offending packet. *)
Theorem framing_errors packets st :
  Forall well_framed packets ->
  sftp_service_loop (stream packets) st = (returned, served packets st)
  /\ (forall len rest,
        length len = 4%nat -> be_value len = 0 ->
        sftp_service_loop (stream packets ++ len ++ rest) st
        = (fatal "zero length job", served packets st))
  /\ (forall len body,
        length len = 4%nat ->
        (length body < Z.to_nat (be_value len))%nat ->
        sftp_service_loop (stream packets ++ len ++ body) st
        = (fatal "read error: unexpected eof", served packets st)).
Proof.
  intros Hall. split; [|split].
  - rewrite <- (app_nil_r (stream packets)).
    rewrite sftp_service_loop_requests by assumption.
    now rewrite sftp_service_loop_eq.
  - intros len rest Hlen Hzero.
    rewrite sftp_service_loop_requests by assumption.
    rewrite sftp_service_loop_eq, do_read_header by assumption.
    now rewrite Hzero.
  - intros len body Hlen Hshort.
    rewrite sftp_service_loop_requests by assumption.
    rewrite sftp_service_loop_eq, do_read_header by assumption.
    destruct (Z.eqb_spec (be_value len) 0) as [Hz|_];
      [rewrite Hz in Hshort; cbn in Hshort; lia|].
    now rewrite do_read_short.
Qed.

(** ** Connections *)

Lemma send_status_protocol job status msg st :
  protocol (snd (send_status job status msg st)) = protocol st.
Proof. now rewrite send_status_emits. Qed.

(** Handlers of the filesystem commands that leave [protocol] alone. *)
Definition handlers_keep_protocol : Prop :=
  forall n job st, protocol (snd (extern_handler n job st)) = protocol st.

(** One request changes the active table only if it was the pre-init
    table and is not any more. *)
Lemma process_sftpjob_step :
  handlers_keep_protocol ->
  forall jv st,
    protocol (snd (process_sftpjob jv st)) = protocol st
    \/ (protocol st = ref_sftppreinit
        /\ protocol (snd (process_sftpjob jv st)) <> ref_sftppreinit).
Proof.
  intros Hkeep jv st. rewrite process_sftpjob_eq.
  destruct (parse_head (data jv)) as [|ty rest|ty rid payload];
    try (left; rewrite then_done, done_protocol; apply send_status_protocol).
  cbv zeta.
  destruct (locate _ _ _ _) as [c|];
    [|left; rewrite then_done, done_protocol; apply send_status_protocol].
  set (job := {| data := data jv; id := rid; ptr := payload |}).
  assert (Hrun :
    protocol (snd ((status <- run_handler (handler c) job ;;
                    respond job status ;; done ty) st))
    = protocol (snd (run_handler (handler c) job st))).
  { unfold bind at 1. destruct (run_handler (handler c) job st) as [status st1].
    cbn [snd]. rewrite then_done, done_protocol. unfold respond.
    destruct (status =? HANDLER_RESPONDED);
      [reflexivity | apply send_status_protocol]. }
  rewrite Hrun. destruct (handler c) as [|n]; cbn [run_handler].
  - apply sftp_init_step.
  - left. specialize (Hkeep n job st).
    destruct (extern_handler n job st). exact Hkeep.
Qed.

(** The active table along the requests of a connection, processed one
    after another. *)
Definition connection_trace : list sftpjob -> server -> list protocol_ref :=
  protocol_trace sftpjob (fun jv st => snd (process_sftpjob jv st)).

(** C1.  [sftp_init] succeeds only while the pre-init table is active: on
    any other table it returns [SSH_FX_FAILURE] and changes nothing.  On
    the pre-init table a proposed version of 0, 1 or 2 returns
    [SSH_FX_OP_UNSUPPORTED] and changes nothing; 3 activates the table of
    version 3 (and sets the reverse-symlink flag when compiled for it),
    4 that of version 4, 5 that of version 5 and every version from 6 on
    that of version 6.  So the active table changes at most once: along
    any sequence of INIT requests, and along all the requests of a
    connection as long as the other handlers leave [protocol] alone. *)
Theorem init_negotiation job st :
  (protocol st <> ref_sftppreinit ->
   sftp_init job st = (SSH_FX_FAILURE, st))
  /\ (forall v job',
        protocol st = ref_sftppreinit ->
        parse_uint32 job 0 = (SSH_FX_OK, v, job') ->
        (v = 0 \/ v = 1 \/ v = 2 ->
         sftp_init job st = (SSH_FX_OP_UNSUPPORTED, st))
        /\ (3 <= v ->
            fst (sftp_init job st) = HANDLER_RESPONDED
            /\ protocol (snd (sftp_init job st))
               = (if v =? 3 then ref_sftpv3
                  else if v =? 4 then ref_sftpv4
                  else if v =? 5 then ref_sftpv5
                  else ref_sftpv6)
            /\ reverse_symlink (snd (sftp_init job st))
               = (if (v =? 3) && REVERSE_SYMLINK then true
                  else reverse_symlink st)))
  /\ (forall jobs, (advances (init_trace jobs st) <= 1)%nat)
  /\ (handlers_keep_protocol ->
      forall jobs, (advances (connection_trace jobs st) <= 1)%nat).
Proof.
  split; [apply sftp_init_again|].
  split; [|split;
           [intros; apply protocol_trace_advances; intros; apply sftp_init_step
           |intros Hkeep jobs; apply protocol_trace_advances;
            apply process_sftpjob_step; exact Hkeep]].
  intros v job' Hp Hparse.
  split; [intros Hv; apply (sftp_init_unsupported job st v job'); assumption|].
  intros Hv.
  destruct (sftp_init_supported_globals job st v job') as (Hr & Hq & Hs);
    try assumption; try lia.
  split; [exact Hr|]. split; [exact Hq|].
  rewrite Hs. unfold negotiated_reverse_symlink.
  destruct (v =? 3), REVERSE_SYMLINK; reflexivity.
Qed.

(** ** The worker pool, continued *)

(** An accepted INIT creates the pool right after the VERSION response
    for the versions 3, 4 and 5, and creates none for version 6. *)
Lemma pool_after_init job st v job' :
  tables_versioned ->
  protocol st = ref_sftppreinit ->
  parse_uint32 job 0 = (SSH_FX_OK, v, job') ->
  3 <= v ->
  workqueue st = None ->
  workqueue (snd (sftp_init job st))
  = if v <? 6 then Some {| nthreads := 4; jobs := [] |} else None.
Proof.
  intros Htab Hp Hparse Hv Hwq.
  rewrite (sftp_init_negotiates job st v job') by assumption.
  cbn [snd]. destruct (Z.ltb_spec v 6) as [Hlt|Hge].
  - destruct (Z.ltb_spec (Z.min v 6) 6); [reflexivity | lia].
  - destruct (Z.ltb_spec (Z.min v 6) 6); [lia|].
    cbn [emit set_output set_buffer workqueue negotiation
           set_reverse_symlink set_protocol]. exact Hwq.
Qed.

(** While there is no pool the reader processes the job itself. *)
Lemma served_inline bytes st :
  workqueue st = None ->
  serve_job (new_job bytes) st = process_sftpjob (new_job bytes) st.
Proof. intros Hwq. unfold serve_job, bind. now rewrite Hwq. Qed.

(** Once there is a pool the reader only hands the job over. *)
Lemma served_by_pool bytes st q :
  workqueue st = Some q ->
  exec (serve_job (new_job bytes)) st
  = set_workqueue (Some {| nthreads := nthreads q;
                           jobs := jobs q ++ [new_job bytes] |}) st.
Proof. intros Hwq. unfold serve_job, bind, exec. now rewrite Hwq. Qed.

Lemma sftppreinittab_sorted : sorted_by_type sftppreinittab.
Proof. repeat constructor. Qed.

(** An INIT request on the pre-init table is handled by [sftp_init];
    when that has responded, the engine adds nothing. *)
Lemma init_request_accepted jv st rest v job' :
  tables_versioned ->
  data jv = SSH_FXP_INIT :: rest ->
  protocol st = ref_sftppreinit ->
  parse_uint32 {| data := data jv; id := 0; ptr := rest |} 0
  = (SSH_FX_OK, v, job') ->
  3 <= v ->
  snd (process_sftpjob jv st)
  = snd (sftp_init {| data := data jv; id := 0; ptr := rest |} st).
Proof.
  intros Htab Hdata Hp Hparse Hv.
  rewrite process_sftpjob_eq, Hdata. cbn [parse_head].
  rewrite (Z.eqb_refl SSH_FXP_INIT). cbv zeta. unfold active, ncommands.
  rewrite Hp. cbn [deref].
  pose proof (locate_present sftppreinittab
                {| type := SSH_FXP_INIT; handler := handler_sftp_init |}
                sftppreinittab_sorted (or_introl eq_refl)) as Hloc.
  cbn [type] in Hloc. change (commands sftppreinit) with sftppreinittab.
  rewrite Hloc.
  cbn [handler run_handler]. rewrite <- Hdata.
  unfold bind at 1.
  rewrite (sftp_init_negotiates _ st v job') by assumption.
  cbv zeta. unfold respond. rewrite (Z.eqb_refl HANDLER_RESPONDED).
  unfold bind, ret. rewrite done_eq. cbn [snd].
  rewrite (Z.eqb_refl SSH_FXP_INIT). reflexivity.
Qed.


(** ** The errno path, from the handler to the wire *)

(** [send_status] at the status of all ones. *)
Lemma send_status_consults_errno job msg st :
  send_status job UINT32_MAX msg st
  = (tt, emit (status_response (id job)
                 (coerce st (errno_status (errno st)))
                 (strerror (errno st))) st).
Proof.
  rewrite send_status_sentinel, send_errno_status_eq.
  rewrite send_status_assemble by apply errno_status_not_sentinel.
  reflexivity.
Qed.

(** A request whose handler returns the status of all ones: the engine
    answers for the [errno] that the handler has left. *)
Lemma handler_consults_errno jv st ty rest c n :
  HANDLER_RESPONDED <> UINT32_MAX ->
  data jv = ty :: rest ->
  ty = SSH_FXP_INIT \/ (4 <= length rest)%nat ->
  sorted_by_type (commands (active st)) ->
  In c (commands (active st)) -> type c = ty ->
  handler c = handler_extern n ->
  let job := {| data := data jv; id := request_id (data jv);
                ptr := if ty =? SSH_FXP_INIT then rest else skipn 4 rest |} in
  let st1 := snd (extern_handler n job st) in
  to_uint32 (fst (extern_handler n job st)) = UINT32_MAX ->
  output (snd (process_sftpjob jv st))
  = output st1
    ++ [status_response (request_id (data jv))
          (coerce st1 (errno_status (errno st1))) (strerror (errno st1))].
Proof.
  intros Hresponded Hdata Hid Hsorted Hin Hty Hhandler job st1 Hret.
  assert (Hrun : process_sftpjob jv st
                 = (status <- run_handler (handler c) job ;;
                    respond job status ;; done ty) st).
  { rewrite process_sftpjob_eq. subst job. unfold request_id.
    rewrite Hdata. cbn [parse_head]. subst ty.
    destruct (Z.eqb_spec (type c) SSH_FXP_INIT) as [Hinit|Hinit].
    - cbv zeta. unfold ncommands. rewrite locate_present by assumption.
      reflexivity.
    - destruct Hid as [Hid|Hid]; [contradiction|].
      destruct rest as [|b3 [|b2 [|b1 [|b0 payload]]]];
        try (cbn [length] in Hid; lia).
      cbv zeta. unfold ncommands. rewrite locate_present by assumption.
      reflexivity. }
  rewrite Hrun, Hhandler. unfold bind at 1. cbn [run_handler].
  subst st1.
  destruct (extern_handler n job st) as [returned_status st1].
  cbn [fst snd] in *. rewrite Hret. rewrite then_done, done_output.
  unfold respond.
  destruct (Z.eqb_spec UINT32_MAX HANDLER_RESPONDED) as [Heq|_];
    [symmetry in Heq; contradiction|].
  rewrite send_status_consults_errno. cbn [snd]. rewrite emit_output.
  reflexivity.
Qed.

(** C7.  The status of all ones makes the server translate [errno] by
    [errnotab].  Given that status, [send_status] sends one STATUS
    response with the request id, the status that the table gives for
    [errno] (limited to [maxstatus] as every status is) and the text of
    the error.  A handler that returns all ones reaches that call: the
    engine appends this response, for the [errno] the handler has left,
    to what the handler has sent.  The table maps EPERM and EACCES to
    PERMISSION_DENIED, ENOENT to NO_SUCH_FILE, EIO to FILE_CORRUPT,
    ENOSPC to NO_SPACE_ON_FILESYSTEM, ENOTDIR to NOT_A_DIRECTORY, EISDIR
    to FILE_IS_A_DIRECTORY, EEXIST to FILE_ALREADY_EXISTS, EROFS to
    WRITE_PROTECT, ELOOP to LINK_LOOP, ENAMETOOLONG to INVALID_FILENAME,
    ENOTEMPTY to DIR_NOT_EMPTY, EDQUOT to QUOTA_EXCEEDED and every other
    error to FAILURE (the value 0, no error, maps to OK).  The error
    numbers of the platform are taken to be distinct, nonzero and
    different from -1 (the keys of [errnotab] do not repeat), and
    [HANDLER_RESPONDED] is not the status of all ones. *)
Theorem errno_translation jv st :
  NoDup (map fst (errnotab E)) ->
  HANDLER_RESPONDED <> UINT32_MAX ->
  (forall job msg,
     let status := errno_status (errno st) in
     send_status job UINT32_MAX msg st
     = (tt, emit (status_response (id job)
                    (if status >? maxstatus (active st)
                     then SSH_FX_FAILURE else status)
                    (strerror (errno st))) st))
  /\ (forall ty rest c n,
        data jv = ty :: rest ->
        ty = SSH_FXP_INIT \/ (4 <= length rest)%nat ->
        sorted_by_type (commands (active st)) ->
        In c (commands (active st)) -> type c = ty ->
        handler c = handler_extern n ->
        let job := {| data := data jv; id := request_id (data jv);
                      ptr := if ty =? SSH_FXP_INIT then rest
                             else skipn 4 rest |} in
        let st1 := snd (extern_handler n job st) in
        let status := errno_status (errno st1) in
        to_uint32 (fst (extern_handler n job st)) = UINT32_MAX ->
        output (snd (process_sftpjob jv st))
        = output st1
          ++ [status_response (request_id (data jv))
                (if status >? maxstatus (active st1)
                 then SSH_FX_FAILURE else status)
                (strerror (errno st1))])
  /\ errno_status (EPERM E) = SSH_FX_PERMISSION_DENIED
  /\ errno_status (EACCES E) = SSH_FX_PERMISSION_DENIED
  /\ errno_status (ENOENT E) = SSH_FX_NO_SUCH_FILE
  /\ errno_status (EIO E) = SSH_FX_FILE_CORRUPT
  /\ errno_status (ENOSPC E) = SSH_FX_NO_SPACE_ON_FILESYSTEM
  /\ errno_status (ENOTDIR E) = SSH_FX_NOT_A_DIRECTORY
  /\ errno_status (EISDIR E) = SSH_FX_FILE_IS_A_DIRECTORY
  /\ errno_status (EEXIST E) = SSH_FX_FILE_ALREADY_EXISTS
  /\ errno_status (EROFS E) = SSH_FX_WRITE_PROTECT
  /\ errno_status (ELOOP E) = SSH_FX_LINK_LOOP
  /\ errno_status (ENAMETOOLONG E) = SSH_FX_INVALID_FILENAME
  /\ errno_status (ENOTEMPTY E) = SSH_FX_DIR_NOT_EMPTY
  /\ errno_status (EDQUOT E) = SSH_FX_QUOTA_EXCEEDED
  /\ errno_status 0 = SSH_FX_OK
  /\ (forall e, e <> 0 -> ~ In e errno_names ->
      errno_status e = SSH_FX_FAILURE).
Proof.
  intros Hnd Hresponded.
  split; [intros job msg; apply send_status_consults_errno|].
  split.
  { intros ty rest c n Hdata Hid Hsorted Hin Hty Hhandler job st1 status Hret.
    now apply (handler_consults_errno jv st ty rest c n). }
  unfold errno_status.
  change (errnotab E)
    with (removelast (errnotab E) ++ [(-1, SSH_FX_FAILURE)]) in *.
  rewrite map_app in Hnd. simpl (map fst [_]) in Hnd.
  apply NoDup_remove in Hnd. rewrite app_nil_r in Hnd.
  destruct Hnd as [Hnd Hterm].
  repeat (split;
          [apply errnotab_scan_hit; [exact Hnd | exact Hterm |];
           simpl; repeat (first [left; reflexivity | right]) |]).
  intros e He Hmiss. apply errnotab_scan_miss; [exact Hterm|].
  clear - He Hmiss. unfold errno_names in Hmiss. simpl in *.
  intuition congruence.
Qed.


(** * Further properties of the engine *)

(** ** The reader and the pool *)

(** The queue after the reader has handed it the given requests. *)
Definition enqueued (packets : list (list Z)) (q : queue) : queue :=
  {| nthreads := nthreads q; jobs := jobs q ++ map new_job packets |}.

Lemma served_with_pool packets st q :
  workqueue st = Some q ->
  served packets st = set_workqueue (Some (enqueued packets q)) st.
Proof.
  revert st q. induction packets as [|bytes packets IH]; intros st q Hwq.
  - cbn [served fold_left]. unfold enqueued. cbn [map]. rewrite app_nil_r.
    destruct st, q. cbn in Hwq. subst. reflexivity.
  - cbn [served fold_left]. rewrite (served_by_pool bytes st q Hwq).
    fold (served packets
            (set_workqueue
               (Some {| nthreads := nthreads q;
                        jobs := jobs q ++ [new_job bytes] |}) st)).
    rewrite (IH (set_workqueue
                   (Some {| nthreads := nthreads q;
                            jobs := jobs q ++ [new_job bytes] |}) st)
                {| nthreads := nthreads q;
                   jobs := jobs q ++ [new_job bytes] |} eq_refl).
    unfold enqueued. cbn [nthreads jobs map set_workqueue workqueue
                            protocol reverse_symlink errno buffer output].
    rewrite <- app_assoc. reflexivity.
Qed.

Lemma sftp_service_loop_with_pool packets st q :
  workqueue st = Some q ->
  Forall well_framed packets ->
  sftp_service_loop (stream packets) st
  = (returned, set_workqueue (Some (enqueued packets q)) st).
Proof.
  intros Hwq Hall. rewrite <- (app_nil_r (stream packets)).
  rewrite sftp_service_loop_requests by assumption.
  rewrite sftp_service_loop_eq. cbn.
  now rewrite (served_with_pool packets st q Hwq).
Qed.

(** X1.  Once the work queue exists the reader only hands jobs over: the
    requests of the rest of the input are appended to the queue in the
    order of their arrival, with their bytes as received; the reader
    sends nothing and changes no other global. *)
Theorem reader_only_enqueues packets st q :
  workqueue st = Some q ->
  Forall well_framed packets ->
  exists st',
    sftp_service_loop (stream packets) st = (returned, st')
    /\ workqueue st'
       = Some {| nthreads := nthreads q;
                 jobs := jobs q ++ map new_job packets |}
    /\ map data (map new_job packets) = packets
    /\ output st' = output st
    /\ protocol st' = protocol st
    /\ reverse_symlink st' = reverse_symlink st.
Proof.
  intros Hwq Hall. eexists. split;
    [apply (sftp_service_loop_with_pool packets st q Hwq Hall)|].
  repeat split. rewrite map_map. cbn [new_job data]. apply map_id.
Qed.

(** X2.  The first request other than INIT that arrives while there is no
    work queue is processed by the reader and leaves a work queue
    behind; every request after it is only handed to that queue. *)
Theorem single_threaded_until_first_request bytes ty rest more st :
  workqueue st = None ->
  bytes = ty :: rest -> ty <> SSH_FXP_INIT ->
  Forall well_framed (bytes :: more) ->
  let st1 := snd (process_sftpjob (new_job bytes) st) in
  exists q,
    workqueue st1 = Some q
    /\ sftp_service_loop (stream (bytes :: more)) st
       = (returned,
          set_workqueue
            (Some {| nthreads := nthreads q;
                     jobs := jobs q ++ map new_job more |}) st1).
Proof.
  intros Hwq Hbytes Hty Hall st1.
  pose proof (pool_created_unless_init (new_job bytes) st ty rest Hbytes Hty)
    as Hpool.
  fold st1 in Hpool. destruct (workqueue st1) as [q|] eqn:Hq; [|contradiction].
  exists q. split; [reflexivity|].
  inversion Hall as [|? ? Hframed Hmore]; subst.
  unfold stream. cbn [map List.concat].
  rewrite sftp_service_loop_request by assumption.
  unfold exec. rewrite served_inline by assumption.
  fold st1. fold (stream more).
  now apply sftp_service_loop_with_pool.
Qed.

(** ** Every byte stream *)

(** The input is a sequence of bytes. *)
Definition bytes_only (input : list Z) : Prop :=
  Forall (fun b => 0 <= b < 256) input.

Lemma be_value_of_bytes len :
  bytes_only len -> length len = 4%nat ->
  0 <= be_value len < 2 ^ 32 /\ enc_uint32 (be_value len) = len.
Proof.
  intros Hb Hlen.
  destruct len as [|b3 [|b2 [|b1 [|b0 [|]]]]]; try discriminate.
  inversion Hb as [|? ? H3 Hb2]; subst. inversion Hb2 as [|? ? H2 Hb1]; subst.
  inversion Hb1 as [|? ? H1 Hb0]; subst. inversion Hb0 as [|? ? H0 _]; subst.
  split; [now apply be_value_bound | now apply enc_uint32_be_value].
Qed.

(** X3.  Whatever bytes arrive, the input splits into complete requests and a
    rest that decides how [sftp_service] ends: fewer than four bytes (the
    end of the input at a packet boundary, or inside a length field) and
    the loop ends and returns; a length field of zero, or a body shorter
    than its length field, and [fatal] ends the process.  In each case
    the state is the one the complete requests have left. *)
Theorem sftp_service_outcome input st :
  bytes_only input ->
  exists packets rest,
    input = stream packets ++ rest
    /\ Forall well_framed packets
    /\ (((length rest < 4)%nat
         /\ sftp_service_loop input st = (returned, served packets st))
        \/ (exists len body,
              rest = len ++ body /\ length len = 4%nat /\ be_value len = 0
              /\ sftp_service_loop input st
                 = (fatal "zero length job", served packets st))
        \/ (exists len body,
              rest = len ++ body /\ length len = 4%nat
              /\ 0 < be_value len
              /\ (length body < Z.to_nat (be_value len))%nat
              /\ sftp_service_loop input st
                 = (fatal "read error: unexpected eof", served packets st))).
Proof.
  remember (length input) as n eqn:Hn. revert input st Hn.
  induction n as [n IH] using lt_wf_ind. intros input st Hn Hbytes.
  rewrite sftp_service_loop_eq.
  destruct (do_read 4 input) as [[len input1]|] eqn:Hread.
  2:{ exists [], input. split; [reflexivity|]. split; [constructor|]. left.
      split; [|reflexivity].
      unfold do_read in Hread. change (Z.to_nat 4) with 4%nat in Hread.
      destruct (Nat.ltb_spec (length input) 4); [assumption | discriminate]. }
  apply do_read_length in Hread. destruct Hread as (Hlen & Hsize & Hinput).
  change (Z.to_nat 4) with 4%nat in *.
  assert (Hblen : bytes_only len /\ bytes_only input1).
  { unfold bytes_only in *. rewrite Hinput in Hbytes.
    now apply Forall_app in Hbytes. }
  destruct Hblen as [Hblen Hbin1].
  destruct (be_value_of_bytes len Hblen Hlen) as [Hrange Henc].
  destruct (Z.eqb_spec (be_value len) 0) as [Hzero|Hnz].
  { exists [], input. split; [reflexivity|]. split; [constructor|].
    right. left. exists len, input1. repeat split; assumption. }
  destruct (do_read (be_value len) input1) as [[bytes input2]|] eqn:Hbody.
  2:{ exists [], input. split; [reflexivity|]. split; [constructor|].
      right. right. exists len, input1.
      repeat split; try assumption; try lia.
      unfold do_read in Hbody.
      destruct (Nat.ltb_spec (length input1) (Z.to_nat (be_value len)));
        [assumption | discriminate]. }
  apply do_read_length in Hbody. destruct Hbody as (Hblen' & Hsize' & Hinput1).
  assert (Hbin2 : bytes_only input2).
  { unfold bytes_only in *. rewrite Hinput1 in Hbin1.
    now apply Forall_app in Hbin1. }
  assert (Hframed : well_framed bytes).
  { split; [intros ->; cbn in Hblen'; lia | lia]. }
  destruct (IH (length input2) ltac:(lia) input2
              (exec (serve_job (new_job bytes)) st) eq_refl Hbin2)
    as (packets & rest & Hsplit & Hall & Hend).
  rewrite sftp_service_loop_eq in Hend.
  exists (bytes :: packets), rest.
  assert (Hframe : frame bytes = len ++ bytes).
  { unfold frame, enc_data. rewrite Hblen', Z2Nat.id by lia. now rewrite Henc. }
  split.
  { unfold stream in *. cbn [map List.concat]. rewrite Hframe, <- !app_assoc.
    rewrite Hinput, Hinput1. do 2 f_equal. exact Hsplit. }
  split; [now constructor|].
  cbn [served fold_left].
  fold (served packets (exec (serve_job (new_job bytes)) st)).
  rewrite <- sftp_service_loop_eq in Hend. exact Hend.
Qed.

(** ** Requests on the pre-init table *)

Lemma locate_preinit ty :
  locate sftppreinittab ty 0 (Z.of_nat (length sftppreinittab) - 1)
  = if ty =? SSH_FXP_INIT
    then Some {| type := SSH_FXP_INIT; handler := handler_sftp_init |}
    else None.
Proof.
  destruct (Z.eqb_spec ty SSH_FXP_INIT) as [->|Hty].
  - exact (locate_present sftppreinittab
             {| type := SSH_FXP_INIT; handler := handler_sftp_init |}
             sftppreinittab_sorted (or_introl eq_refl)).
  - apply locate_absent. intros c [<-|[]]. cbn [type]. congruence.
Qed.

(** A STATUS response followed by the code after [done]. *)
Lemma status_then_done job status msg ty st :
  status <> UINT32_MAX ->
  snd ((send_status job status msg ;; done ty) st)
  = snd (done ty (emit (status_response (id job) (coerce st status)
                          (message_text status msg)) st)).
Proof.
  intros Hs. rewrite then_done, send_status_assemble by assumption.
  reflexivity.
Qed.

Lemma done_init st : snd (done SSH_FXP_INIT st) = st.
Proof. rewrite done_eq. reflexivity. Qed.

Lemma coerce_preinit st status :
  protocol st = ref_sftppreinit -> status <= SSH_FX_OP_UNSUPPORTED ->
  coerce st status = status.
Proof.
  intros Hp Hle. apply coerce_known. unfold active. rewrite Hp. exact Hle.
Qed.

(** An INIT request on the pre-init table: [sftp_init] runs on the bytes
    after the type, and its status is answered. *)
Lemma init_request_eq jv st rest :
  protocol st = ref_sftppreinit ->
  data jv = SSH_FXP_INIT :: rest ->
  let job := {| data := data jv; id := 0; ptr := rest |} in
  snd (process_sftpjob jv st)
  = snd (respond job (fst (sftp_init job st)) (snd (sftp_init job st))).
Proof.
  intros Hp Hdata job. rewrite process_sftpjob_eq, Hdata. cbn [parse_head].
  rewrite (Z.eqb_refl SSH_FXP_INIT). cbv zeta. unfold active, ncommands.
  rewrite Hp. cbn [deref]. change (commands sftppreinit) with sftppreinittab.
  rewrite locate_preinit, (Z.eqb_refl SSH_FXP_INIT).
  cbn [handler run_handler]. rewrite <- Hdata. fold job.
  unfold bind at 1. destruct (sftp_init job st) as [status st1].
  cbn [fst snd]. now rewrite then_done, done_init.
Qed.

(** X4.  An INIT that is not accepted is answered with a STATUS response of
    id 0 and leaves every global as it was: a request cut short before
    the end of the version field gets [SSH_FX_BAD_MESSAGE], the versions
    0, 1 and 2 get [SSH_FX_OP_UNSUPPORTED].  The pre-init table stays
    active, so a later INIT is treated as the first. *)
Theorem failed_init_changes_nothing jv st rest :
  protocol st = ref_sftppreinit ->
  data jv = SSH_FXP_INIT :: rest ->
  HANDLER_RESPONDED <> SSH_FX_BAD_MESSAGE ->
  HANDLER_RESPONDED <> SSH_FX_OP_UNSUPPORTED ->
  ((length rest < 4)%nat ->
   snd (process_sftpjob jv st)
   = emit (status_response 0 SSH_FX_BAD_MESSAGE "badly encoded SFTP packet") st)
  /\ (forall b3 b2 b1 b0 more,
        rest = b3 :: b2 :: b1 :: b0 :: more ->
        be_value [b3; b2; b1; b0] = 0 \/ be_value [b3; b2; b1; b0] = 1
        \/ be_value [b3; b2; b1; b0] = 2 ->
        snd (process_sftpjob jv st)
        = emit (status_response 0 SSH_FX_OP_UNSUPPORTED
                  "operation not supported") st).
Proof.
  intros Hp Hdata Hbad Hunsup. split.
  - intros Hshort. rewrite (init_request_eq jv st rest Hp Hdata). cbv zeta.
    rewrite (sftp_init_truncated _ st SSH_FX_BAD_MESSAGE 0
               {| data := data jv; id := 0; ptr := rest |} Hp).
    + cbn [fst snd]. unfold respond.
      destruct (Z.eqb_spec SSH_FX_BAD_MESSAGE HANDLER_RESPONDED);
        [congruence|].
      rewrite send_status_assemble by discriminate.
      cbn [snd id]. rewrite coerce_preinit by (assumption || discriminate).
      reflexivity.
    + unfold parse_uint32. cbn [ptr].
      destruct rest as [|b3 [|b2 [|b1 [|b0 more]]]]; try reflexivity.
      cbn [length] in Hshort. lia.
    + discriminate.
  - intros b3 b2 b1 b0 more Hrest Hv.
    rewrite (init_request_eq jv st rest Hp Hdata). cbv zeta.
    rewrite (sftp_init_unsupported _ st (be_value [b3; b2; b1; b0])
               {| data := data jv; id := 0; ptr := more |} Hp).
    + cbn [fst snd]. unfold respond.
      destruct (Z.eqb_spec SSH_FX_OP_UNSUPPORTED HANDLER_RESPONDED);
        [congruence|].
      rewrite send_status_assemble by discriminate.
      cbn [snd id]. rewrite coerce_preinit by (assumption || discriminate).
      reflexivity.
    + unfold parse_uint32. cbn [ptr]. rewrite Hrest. reflexivity.
    + exact Hv.
Qed.

(** X5.  An INIT on a table of a negotiated version, where INIT is handled by
    [sftp_init] again: the answer is a STATUS response of id 0 with
    [SSH_FX_FAILURE], and nothing else changes; in particular this
    request creates no work queue. *)
Theorem second_init_refused jv st rest c :
  protocol st <> ref_sftppreinit ->
  data jv = SSH_FXP_INIT :: rest ->
  sorted_by_type (commands (active st)) ->
  In c (commands (active st)) ->
  type c = SSH_FXP_INIT -> handler c = handler_sftp_init ->
  SSH_FX_FAILURE <= maxstatus (active st) ->
  HANDLER_RESPONDED <> SSH_FX_FAILURE ->
  snd (process_sftpjob jv st)
  = emit (status_response 0 SSH_FX_FAILURE "operation failed") st.
Proof.
  intros Hp Hdata Hsorted Hin Hty Hh Hmax Hr.
  rewrite process_sftpjob_eq, Hdata. cbn [parse_head].
  rewrite (Z.eqb_refl SSH_FXP_INIT). cbv zeta. unfold ncommands.
  rewrite <- Hty. rewrite (locate_present _ c Hsorted Hin). rewrite Hh, Hty.
  cbn [run_handler]. unfold bind at 1.
  rewrite sftp_init_again by assumption.
  rewrite then_done, done_init. unfold respond.
  destruct (Z.eqb_spec SSH_FX_FAILURE HANDLER_RESPONDED); [congruence|].
  rewrite send_status_assemble by discriminate.
  cbn [snd id]. now rewrite coerce_known.
Qed.

(** X6.  [sftp_init] reads the version field and nothing after it: two INIT
    requests that agree on the four bytes of the version lead to the
    same result, whatever extension data the client has appended. *)
Theorem init_reads_version_only job1 job2 st :
  firstn 4 (ptr job1) = firstn 4 (ptr job2) ->
  sftp_init job1 st = sftp_init job2 st.
Proof.
  intros Hsame.
  assert (Hparse : fst (parse_uint32 job1 0) = fst (parse_uint32 job2 0)).
  { unfold parse_uint32.
    destruct (ptr job1) as [|a3 [|a2 [|a1 [|a0 r1]]]];
      destruct (ptr job2) as [|c3 [|c2 [|c1 [|c0 r2]]]];
      cbn [firstn] in Hsame; try discriminate; try reflexivity.
    inversion Hsame; subst. reflexivity. }
  unfold sftp_init, bind.
  destruct (protocol_ref_eqb (protocol st) ref_sftppreinit); [|reflexivity].
  cbn [negb].
  destruct (parse_uint32 job1 0) as [[rc1 v1] j1].
  destruct (parse_uint32 job2 0) as [[rc2 v2] j2].
  cbn [fst] in Hparse. inversion Hparse; subst. reflexivity.
Qed.

(** X7.  Every request that is processed while the pre-init table is active
    gets exactly one response.  It is a VERSION response exactly when
    the request has moved the server off the pre-init table; otherwise
    it is a STATUS response and the table and the reverse-symlink flag
    are as before. *)
Theorem one_response_before_init jv st :
  tables_versioned ->
  protocol st = ref_sftppreinit ->
  bytes_only (data jv) ->
  HANDLER_RESPONDED <> SSH_FX_BAD_MESSAGE ->
  HANDLER_RESPONDED <> SSH_FX_OP_UNSUPPORTED ->
  let st' := snd (process_sftpjob jv st) in
  exists payload,
    output st' = output st ++ [payload]
    /\ ((hd_error payload = Some SSH_FXP_STATUS
         /\ protocol st' = ref_sftppreinit
         /\ reverse_symlink st' = reverse_symlink st)
        \/ (hd_error payload = Some SSH_FXP_VERSION
            /\ protocol st' <> ref_sftppreinit)).
Proof.
  intros Htab Hp Hbytes Hbad Hunsup st'. subst st'.
  assert (Hstatus : forall job status msg ty,
    exists payload,
      output (snd ((send_status job status msg ;; done ty) st))
      = output st ++ [payload]
      /\ ((hd_error payload = Some SSH_FXP_STATUS
           /\ protocol (snd ((send_status job status msg ;; done ty) st))
              = ref_sftppreinit
           /\ reverse_symlink (snd ((send_status job status msg ;; done ty) st))
              = reverse_symlink st)
          \/ (hd_error payload = Some SSH_FXP_VERSION
              /\ protocol (snd ((send_status job status msg ;; done ty) st))
                 <> ref_sftppreinit))).
  { intros job status msg ty. rewrite then_done, send_status_emits.
    cbn [snd]. eexists. rewrite done_output, done_protocol, emit_output.
    split; [reflexivity|]. left. split; [reflexivity|].
    split; [exact Hp|]. rewrite done_eq. cbn [snd].
    destruct (_ && _); reflexivity. }
  destruct (parse_head (data jv)) as [|ty rest|ty rid payload] eqn:Hhead.
  - rewrite process_sftpjob_eq, Hhead. apply Hstatus.
  - rewrite process_sftpjob_eq, Hhead. apply Hstatus.
  - destruct (Z.eqb_spec ty SSH_FXP_INIT) as [->|Hty].
    2:{ rewrite process_sftpjob_eq, Hhead. cbv zeta. unfold active, ncommands.
        rewrite Hp. cbn [deref].
        change (commands sftppreinit) with sftppreinittab.
        rewrite locate_preinit.
        destruct (Z.eqb_spec ty SSH_FXP_INIT); [contradiction|].
        apply Hstatus. }
    assert (Hdata : data jv = SSH_FXP_INIT :: payload /\ rid = 0).
    { unfold parse_head in Hhead. destruct (data jv) as [|ty rest]; [discriminate|].
      destruct (Z.eqb_spec ty SSH_FXP_INIT) as [->|Hne].
      - inversion Hhead; subst. now split.
      - destruct rest as [|b3 [|b2 [|b1 [|b0 more]]]]; try discriminate.
        inversion Hhead; subst. contradiction. }
    destruct Hdata as [Hdata ->].
    rewrite (init_request_eq jv st payload Hp Hdata). cbv zeta.
    set (job := {| data := data jv; id := 0; ptr := payload |}).
    assert (Hanswer : forall status,
      status <> UINT32_MAX -> status <> HANDLER_RESPONDED ->
      exists p,
        output (snd (respond job status st)) = output st ++ [p]
        /\ ((hd_error p = Some SSH_FXP_STATUS
             /\ protocol (snd (respond job status st)) = ref_sftppreinit
             /\ reverse_symlink (snd (respond job status st))
                = reverse_symlink st)
            \/ (hd_error p = Some SSH_FXP_VERSION
                /\ protocol (snd (respond job status st)) <> ref_sftppreinit))).
    { intros status Hs Hr. unfold respond.
      destruct (Z.eqb_spec status HANDLER_RESPONDED); [contradiction|].
      rewrite send_status_assemble by assumption. cbn [snd]. eexists.
      split; [reflexivity|]. left. split; [reflexivity|].
      split; [exact Hp | reflexivity]. }
    destruct (parse_uint32_status job 0) as [(v & job' & Hparse)|Hparse].
    + assert (Hv : 0 <= v).
      { unfold parse_uint32 in Hparse. cbn [ptr job] in Hparse.
        destruct payload as [|b3 [|b2 [|b1 [|b0 more]]]]; try discriminate.
        inversion Hparse; subst. rewrite Hdata in Hbytes.
        unfold bytes_only in Hbytes.
        inversion Hbytes as [|? ? _ H3]; subst.
        inversion H3 as [|? ? Hb3 H2]; subst.
        inversion H2 as [|? ? Hb2 H1]; subst.
        inversion H1 as [|? ? Hb1 H0]; subst.
        inversion H0 as [|? ? Hb0 _]; subst.
        now apply be_value_bound. }
      destruct (Z_lt_ge_dec v 3) as [Hlow|Hhigh].
      * rewrite (sftp_init_unsupported job st v job' Hp Hparse) by lia.
        cbn [fst snd]. apply Hanswer; [discriminate | congruence].
      * rewrite (sftp_init_negotiates job st v job' Htab Hp Hparse) by lia.
        cbv zeta. cbn [fst snd]. unfold respond.
        rewrite (Z.eqb_refl HANDLER_RESPONDED). cbn [ret snd].
        eexists. split.
        { destruct (Z.min v 6 <? 6); reflexivity. }
        right. split; [reflexivity|].
        destruct (Z.min v 6 <? 6);
          cbn [set_workqueue emit set_output set_buffer negotiation
                 set_reverse_symlink set_protocol protocol];
          apply negotiated_not_preinit.
    + rewrite (sftp_init_truncated job st _ _ _ Hp Hparse) by discriminate.
      cbn [fst snd]. apply Hanswer; [discriminate | congruence].
Qed.

(** ** The errno path *)

(** X8.  [send_errno_status] sends one STATUS response whose message is the
    text of the error and whose code is the status that [errnotab] gives
    for [errno], replaced by [SSH_FX_FAILURE] when the active version
    does not know that status.  Whatever the error numbers of the
    platform are, the status from the table is one of fourteen status
    codes and never a sentinel; [errno] itself is left as it was. *)
Theorem errno_status_laundered job st :
  let status := errno_status (errno st) in
  send_errno_status job st
  = (tt, emit (status_response (id job)
                 (if status >? maxstatus (active st) then SSH_FX_FAILURE
                  else status)
                 (strerror (errno st))) st)
  /\ errno (snd (send_errno_status job st)) = errno st
  /\ In status
       [ SSH_FX_OK; SSH_FX_PERMISSION_DENIED; SSH_FX_NO_SUCH_FILE;
         SSH_FX_FILE_CORRUPT; SSH_FX_NO_SPACE_ON_FILESYSTEM;
         SSH_FX_NOT_A_DIRECTORY; SSH_FX_FILE_IS_A_DIRECTORY;
         SSH_FX_FILE_ALREADY_EXISTS; SSH_FX_WRITE_PROTECT; SSH_FX_LINK_LOOP;
         SSH_FX_INVALID_FILENAME; SSH_FX_DIR_NOT_EMPTY;
         SSH_FX_QUOTA_EXCEEDED; SSH_FX_FAILURE ].
Proof.
  intros status.
  assert (Hsend : send_errno_status job st
                  = (tt, emit (status_response (id job) (coerce st status)
                                 (strerror (errno st))) st)).
  { rewrite send_errno_status_eq.
    now rewrite send_status_assemble by apply errno_status_not_sentinel. }
  split; [exact Hsend|]. split; [now rewrite Hsend|].
  subst status. unfold errno_status.
  destruct (errnotab_scan_cases (errnotab E) (errno st)) as [H|H].
  - rewrite H. cbn [In]. tauto.
  - remember (errnotab_scan (errnotab E) (errno st)) as s eqn:Hs. clear Hs.
    cbn [map snd errnotab In] in H. cbn [In]. tauto.
Qed.

(** ** A connection from its start *)

(** X9.  A connection that opens with an INIT for version 3, 4 or 5, followed
    by any extension data: the reader answers with the VERSION response,
    activates the table of that version, creates the pool of four
    workers, and hands every later request of the input to the pool in
    order.  VERSION is the only response that the reader sends. *)
Theorem connection_opened v extension more :
  tables_versioned ->
  3 <= v <= 5 ->
  let init := SSH_FXP_INIT :: enc_uint32 v ++ extension in
  Forall well_framed (init :: more) ->
  exists st,
    sftp_service (stream (init :: more)) = (returned, st)
    /\ protocol st = negotiated v
    /\ workqueue st = Some {| nthreads := 4; jobs := map new_job more |}
    /\ output st
       = [version_response v
            (advertised v (negotiated_reverse_symlink v initial_server)
               (extensions (deref (negotiated v))))].
Proof.
  intros Htab Hv init Hall.
  inversion Hall as [|? ? Hframed Hmore]; subst.
  assert (Hparse :
    parse_uint32 {| data := data (new_job init); id := 0;
                    ptr := enc_uint32 v ++ extension |} 0
    = (SSH_FX_OK, v, {| data := init; id := 0; ptr := extension |})).
  { unfold parse_uint32. cbn [ptr data new_job].
    unfold enc_uint32, be_bytes. cbn [app].
    fold (be_bytes 4 v). change (be_bytes 4 v) with (enc_uint32 v).
    rewrite be_value_enc_uint32 by (change (2 ^ 32) with 4294967296; lia).
    reflexivity. }
  set (st1 := snd (process_sftpjob (new_job init) initial_server)).
  assert (Hst1 :
    st1 = set_workqueue (Some {| nthreads := 4; jobs := [] |})
            (emit (version_response v
                     (advertised v
                        (negotiated_reverse_symlink v initial_server)
                        (extensions (deref (negotiated v)))))
               (negotiation v initial_server))).
  { subst st1.
    rewrite (init_request_accepted (new_job init) initial_server
               (enc_uint32 v ++ extension) v _ Htab eq_refl eq_refl Hparse)
      by lia.
    rewrite (sftp_init_negotiates _ initial_server v _ Htab eq_refl Hparse)
      by lia.
    cbv zeta. cbn [snd]. replace (Z.min v 6) with v by lia.
    destruct (Z.ltb_spec v 6); [reflexivity | lia]. }
  exists (set_workqueue
            (Some (enqueued more {| nthreads := 4; jobs := [] |})) st1).
  split.
  - unfold sftp_service, stream. cbn [map List.concat].
    rewrite sftp_service_loop_request by assumption.
    unfold exec. rewrite served_inline by reflexivity. fold st1.
    fold (stream more). apply sftp_service_loop_with_pool; [|assumption].
    now rewrite Hst1.
  - rewrite Hst1. repeat split.
Qed.

(** X10.  [send_ok] is never coerced: the status field of a table is
    unsigned, so no table makes 0 exceed its [maxstatus], and the
    response is code 0 with the message of [SSH_FX_OK] on every table. *)
Theorem ok_never_coerced job st :
  0 <= maxstatus (active st) ->
  send_ok job st = (tt, emit (status_response (id job) SSH_FX_OK "OK") st).
Proof.
  intros Hmax. unfold send_ok. rewrite send_status_assemble by discriminate.
  unfold coerce. destruct (Z.gtb_spec SSH_FX_OK (maxstatus (active st)));
    [cbv [SSH_FX_OK] in *; lia | reflexivity].
Qed.
End Server.


(** * Further properties outside the engine's state *)

(** ** The status messages *)

Lemma status_to_string_unknown status :
  ~ 0 <= status <= 31 -> status_to_string status = "unknown status".
Proof.
  intros Hout. unfold status_to_string.
  repeat match goal with
         | |- context [if ?x =? ?y then _ else _] =>
             destruct (Z.eqb_spec x y) as [Heq|_];
             [exfalso; apply Hout; rewrite Heq; split; discriminate|]
         end.
  reflexivity.
Qed.

Lemma status_to_string_known_distinct (n1 n2 : nat) :
  (n1 < 32)%nat -> (n2 < 32)%nat ->
  status_to_string (Z.of_nat n1) = status_to_string (Z.of_nat n2) ->
  n1 = n2.
Proof.
  intros H1 H2 Heq.
  do 32 (destruct n1 as [|n1];
         [do 32 (destruct n2 as [|n2];
                 [first [reflexivity
                        | apply String.eqb_eq in Heq; vm_compute in Heq;
                          discriminate Heq]|]);
          exfalso; lia|]).
  exfalso; lia.
Qed.

(** X11.  [status_to_string] names every status from 0 to 31 by a message of
    its own, so the message identifies the status; every other value,
    and no status from 0 to 31, is named "unknown status". *)
Theorem status_messages_distinct s1 s2 :
  (0 <= s1 <= 31 -> 0 <= s2 <= 31 ->
   status_to_string s1 = status_to_string s2 -> s1 = s2)
  /\ (status_to_string s1 = "unknown status" <-> ~ 0 <= s1 <= 31).
Proof.
  assert (Hinj : forall a b, 0 <= a <= 31 -> 0 <= b <= 31 ->
                             status_to_string a = status_to_string b -> a = b).
  { intros a b Ha Hb Heq.
    rewrite <- (Z2Nat.id a), <- (Z2Nat.id b) in Heq by lia.
    apply status_to_string_known_distinct in Heq; lia. }
  split; [apply Hinj|]. split.
  - intros Hunknown Hin.
    assert (Hcases : exists n, (n < 32)%nat /\ s1 = Z.of_nat n)
      by (exists (Z.to_nat s1); split; lia).
    destruct Hcases as (n & Hn & ->). clear Hin Hinj.
    do 32 (destruct n as [|n];
           [apply String.eqb_eq in Hunknown; vm_compute in Hunknown;
            discriminate Hunknown|]).
    lia.
  - apply status_to_string_unknown.
Qed.

(** ** The binary search, step by step *)

(** The indices [m] at which the search of [process_sftpjob] reads the
    command array, in the order of reading: the loop of [locate] with
    the same tests. *)
Equations? locate_probes (cmds : list sftpcmd) (ty l r : Z) : list Z
  by wf (Z.to_nat (r - l + 1)) lt :=
  locate_probes cmds ty l r with Z_le_gt_dec l r => {
    | right _ => []
    | left _ =>
        let m := Z.quot (l + r) 2 in
        m :: match nth_error cmds (Z.to_nat m) with
             | None => []
             | Some c =>
                 let mtype := type c in
                 if ty <? mtype then locate_probes cmds ty l (m - 1)
                 else if ty >? mtype then locate_probes cmds ty (m + 1) r
                 else []
             end }.
Proof.
  all: subst m; pose proof (Z.quot_rem' (l + r) 2);
    pose proof (Z.rem_bound_abs (l + r) 2); lia.
Qed.

Lemma locate_probes_eq cmds ty l r :
  locate_probes cmds ty l r
  = if l <=? r then
      Z.quot (l + r) 2
      :: match nth_error cmds (Z.to_nat (Z.quot (l + r) 2)) with
         | None => []
         | Some c =>
             if ty <? type c
             then locate_probes cmds ty l (Z.quot (l + r) 2 - 1)
             else if ty >? type c
                  then locate_probes cmds ty (Z.quot (l + r) 2 + 1) r
                  else []
         end
    else [].
Proof.
  rewrite locate_probes_equation_1.
  destruct (Z_le_gt_dec l r) as [Hle|Hgt]; cbn.
  - destruct (Z.leb_spec l r); [reflexivity | lia].
  - destruct (Z.leb_spec l r); [lia | reflexivity].
Qed.

Lemma midpoint_halves l r :
  l <= r ->
  2 * (Z.quot (l + r) 2 - 1 - l + 1) <= r - l + 1
  /\ 2 * (r - (Z.quot (l + r) 2 + 1) + 1) <= r - l + 1.
Proof.
  intros Hle. pose proof (Z.quot_rem' (l + r) 2).
  pose proof (Z.rem_bound_abs (l + r) 2). lia.
Qed.

Lemma locate_probes_in_bounds cmds ty :
  forall n l r,
    (Z.to_nat (r - l + 1) <= n)%nat ->
    0 <= l -> r < Z.of_nat (length cmds) ->
    Forall (fun m => l <= m <= r
                     /\ nth_error cmds (Z.to_nat m) <> None)
           (locate_probes cmds ty l r).
Proof.
  induction n as [|n IH]; intros l r Hn Hl Hr; rewrite locate_probes_eq;
    destruct (Z.leb_spec l r) as [Hle|Hgt]; try constructor; try lia.
  - pose proof (midpoint_between l r Hle) as Hm. split; [exact Hm|].
    intros Hnone. apply nth_error_None in Hnone. lia.
  - pose proof (midpoint_between l r Hle) as Hm.
    destruct (nth_error cmds (Z.to_nat (Z.quot (l + r) 2))) as [c|];
      [|constructor].
    destruct (ty <? type c);
      [|destruct (ty >? type c); [|constructor]].
    + eapply Forall_impl; [|apply (IH l (Z.quot (l + r) 2 - 1)); lia].
      cbv beta. intros m [Hb Hs]. split; [lia | exact Hs].
    + eapply Forall_impl; [|apply (IH (Z.quot (l + r) 2 + 1) r); lia].
      cbv beta. intros m [Hb Hs]. split; [lia | exact Hs].
Qed.

Lemma locate_probes_count cmds ty :
  forall n l r,
    (Z.to_nat (r - l + 1) <= n)%nat -> l <= r ->
    2 ^ Z.of_nat (length (locate_probes cmds ty l r)) <= 2 * (r - l + 1).
Proof.
  assert (Hstep : forall l r probes,
    l <= r -> (probes = [] \/ 2 ^ Z.of_nat (length probes) <= r - l + 1) ->
    2 ^ Z.of_nat (length (Z.quot (l + r) 2 :: probes)) <= 2 * (r - l + 1)).
  { intros l r probes Hle [->|Hb];
      [cbn [length]; change (Z.of_nat 1) with 1; rewrite Z.pow_1_r; lia|].
    cbn [length]. rewrite Nat2Z.inj_succ, Z.pow_succ_r by lia. lia. }
  induction n as [|n IH]; intros l r Hn Hle; [lia|].
  rewrite locate_probes_eq. destruct (Z.leb_spec l r) as [_|Hgt]; [|lia].
  destruct (midpoint_halves l r Hle) as [Hleft Hright].
  apply Hstep; [exact Hle|].
  destruct (nth_error cmds (Z.to_nat (Z.quot (l + r) 2))) as [c|];
    [|now left].
  destruct (ty <? type c); [|destruct (ty >? type c); [|now left]].
  - destruct (Z_le_gt_dec l (Z.quot (l + r) 2 - 1)) as [Hne|Hempty].
    + right. specialize (IH l (Z.quot (l + r) 2 - 1) ltac:(lia) Hne). lia.
    + left. rewrite locate_probes_eq.
      destruct (Z.leb_spec l (Z.quot (l + r) 2 - 1)); [lia | reflexivity].
  - destruct (Z_le_gt_dec (Z.quot (l + r) 2 + 1) r) as [Hne|Hempty].
    + right. specialize (IH (Z.quot (l + r) 2 + 1) r ltac:(lia) Hne). lia.
    + left. rewrite locate_probes_eq.
      destruct (Z.leb_spec (Z.quot (l + r) 2 + 1) r); [lia | reflexivity].
Qed.

(** What [locate] finds is the entry at the last index read. *)
Lemma locate_at_last_probe cmds ty c :
  forall n l r,
    (Z.to_nat (r - l + 1) <= n)%nat ->
    locate cmds ty l r = Some c ->
    exists before m,
      locate_probes cmds ty l r = before ++ [m]
      /\ nth_error cmds (Z.to_nat m) = Some c.
Proof.
  induction n as [|n IH]; intros l r Hn; rewrite locate_eq, locate_probes_eq;
    destruct (Z.leb_spec l r) as [Hle|Hgt]; try discriminate; [lia|].
  pose proof (midpoint_between l r Hle) as Hm.
  destruct (nth_error cmds (Z.to_nat (Z.quot (l + r) 2))) as [cm|] eqn:Hnth;
    [|discriminate].
  destruct (ty <? type cm);
    [|destruct (ty >? type cm)].
  - intros Hloc.
    destruct (IH l (Z.quot (l + r) 2 - 1) ltac:(lia) Hloc)
      as (before & m & -> & Hc).
    exists (Z.quot (l + r) 2 :: before), m. split; [reflexivity | exact Hc].
  - intros Hloc.
    destruct (IH (Z.quot (l + r) 2 + 1) r ltac:(lia) Hloc)
      as (before & m & -> & Hc).
    exists (Z.quot (l + r) 2 :: before), m. split; [reflexivity | exact Hc].
  - intros Hloc. inversion Hloc; subst.
    exists [], (Z.quot (l + r) 2). split; [reflexivity | exact Hnth].
Qed.

(** X12.  The search over a whole command array reads only entries of the
    array, at most [k] of them when the array has fewer than [2^k]
    entries, and what it finds is the entry it has read last. *)
Theorem binary_search_probes (cmds : list sftpcmd) (ty : Z) :
  cmds <> [] ->
  let n := Z.of_nat (length cmds) in
  let probes := locate_probes cmds ty 0 (n - 1) in
  Forall (fun m => 0 <= m < n /\ nth_error cmds (Z.to_nat m) <> None) probes
  /\ 2 ^ Z.of_nat (length probes) <= 2 * n
  /\ (forall c, locate cmds ty 0 (n - 1) = Some c ->
                exists before m,
                  probes = before ++ [m]
                  /\ nth_error cmds (Z.to_nat m) = Some c).
Proof.
  intros Hne n probes.
  assert (Hpos : 1 <= n)
    by (subst n; destruct cmds; [contradiction | cbn [length]; lia]).
  split; [|split].
  - eapply Forall_impl;
      [|apply (locate_probes_in_bounds cmds ty _ 0 (n - 1) (Nat.le_refl _));
        subst n; lia].
    cbv beta. intros m [Hb Hs]. split; [lia | exact Hs].
  - pose proof (locate_probes_count cmds ty _ 0 (n - 1) (Nat.le_refl _)) as Hc.
    subst probes. replace (n - 1 - 0 + 1) with n in Hc by lia. apply Hc. lia.
  - intros c Hloc.
    exact (locate_at_last_probe cmds ty c _ 0 (n - 1) (Nat.le_refl _) Hloc).
Qed.
(** * A sample build

    Concrete values for what the section leaves open, on which the
    theorems above are instantiated. *)

(** The error numbers of Linux. *)
Definition linux_errno : errno_h :=
  {| EPERM := 1; EACCES := 13; ENOENT := 2; EIO := 5; ENOSPC := 28;
     ENOTDIR := 20; EISDIR := 21; EEXIST := 17; EROFS := 30; ELOOP := 40;
     ENAMETOOLONG := 36; ENOTEMPTY := 39; EDQUOT := 122 |}.

Definition linux_strerror (errno_value : Z) : string :=
  if errno_value =? 2 then "No such file or directory"
  else if errno_value =? 13 then "Permission denied"
  else "Unknown error".

(** Sample tables for the four versions: INIT and a few commands each,
    sorted by type; version 3 knows the statuses up to
    [SSH_FX_OP_UNSUPPORTED], as the spec says. *)
Definition sample_commands : list sftpcmd :=
  [ {| type := 1; handler := handler_sftp_init |};
    {| type := 3; handler := handler_extern 0 |};
    {| type := 4; handler := handler_extern 1 |};
    {| type := 17; handler := handler_extern 2 |} ].

Definition sample_sftpv3 : sftpprotocol :=
  {| commands := sample_commands; version := 3; attrmask := 0xF;
     maxstatus := SSH_FX_OP_UNSUPPORTED; extensions := [] |}.

Definition sample_sftpv4 : sftpprotocol :=
  {| commands := sample_commands; version := 4; attrmask := 0x1FD;
     maxstatus := SSH_FX_NO_MEDIA; extensions := [] |}.

Definition sample_sftpv5 : sftpprotocol :=
  {| commands := sample_commands; version := 5; attrmask := 0x3FD;
     maxstatus := SSH_FX_LOCK_CONFLICT; extensions := ["space-available"] |}.

Definition sample_sftpv6 : sftpprotocol :=
  {| commands := sample_commands; version := 6; attrmask := 0xFFFD;
     maxstatus := SSH_FX_NO_MATCHING_BYTE_RANGE_LOCK;
     extensions := ["space-available"; "version-select"] |}.

(** Sample handlers: the first fails with a status that only version 4
    knows, the others succeed. *)
Definition sample_handler (n : nat) (job : sftpjob) (st : server) : Z * server :=
  match n with
  | O => (SSH_FX_FILE_ALREADY_EXISTS, st)
  | _ => (SSH_FX_OK, st)
  end.

Definition sample_HANDLER_RESPONDED : Z := 0xFFFFFFFE.

(** A server on which version 3 has been negotiated; [errno] is ENOENT. *)
Definition sample_v3_server : server :=
  {| protocol := ref_sftpv3; reverse_symlink := true;
     workqueue := Some {| nthreads := 4; jobs := [] |}; errno := 2;
     buffer := []; output := [] |}.

(** A job with request id 7. *)
Definition sample_job : sftpjob := {| data := [17; 0; 0; 0; 7]; id := 7; ptr := [] |}.

(** An INIT request that proposes version 3, and the job for it after
    the type has been read. *)
Definition sample_init : list Z := [1; 0; 0; 0; 3].
Definition sample_init_job : sftpjob :=
  {| data := sample_init; id := 0; ptr := [0; 0; 0; 3] |}.

Lemma sample_commands_sorted : sorted_by_type sample_commands.
Proof.
  unfold sorted_by_type, sample_commands.
  repeat (constructor; [|repeat (constructor; [cbn [type]; lia|]); constructor]).
  constructor.
Qed.

Lemma sample_tables_versioned :
  tables_versioned sample_sftpv3 sample_sftpv4 sample_sftpv5 sample_sftpv6.
Proof. repeat split. Qed.


(** Scenario 5 of the spec: on version 3 a handler status of 11 is sent
    as code 4, with the message of status 11. *)
Example status_coerced_on_v3 :
  send_status linux_errno linux_strerror
    sample_sftpv3 sample_sftpv4 sample_sftpv5 sample_sftpv6
    sample_job 11 None sample_v3_server
  = (tt, emit (status_response 7 4 "file already exists") sample_v3_server).
Proof. rewrite send_status_assemble by discriminate. reflexivity. Qed.

Lemma message_chosen_before_coercion_witness :
  send_status linux_errno linux_strerror
    sample_sftpv3 sample_sftpv4 sample_sftpv5 sample_sftpv6
    sample_job SSH_FX_FILE_ALREADY_EXISTS None sample_v3_server
  = (tt, emit (status_response 7 SSH_FX_FAILURE "file already exists")
           sample_v3_server)
  /\ "file already exists" <> "operation failed".
Proof.
  apply (message_chosen_before_coercion linux_errno linux_strerror
           sample_sftpv3 sample_sftpv4 sample_sftpv5 sample_sftpv6
           sample_job SSH_FX_FILE_ALREADY_EXISTS sample_v3_server).
  - vm_compute; discriminate.
  - discriminate.
  - reflexivity.
Defined.

Lemma linux_errno_distinct : NoDup (map fst (errnotab linux_errno)).
Proof.
  cbn [map fst errnotab linux_errno EPERM EACCES ENOENT EIO ENOSPC ENOTDIR
         EISDIR EEXIST EROFS ELOOP ENAMETOOLONG ENOTEMPTY EDQUOT].
  repeat (constructor; [cbn [In]; intuition discriminate|]). constructor.
Defined.

(** A handler that fails with EACCES and has the engine consult
    [errno]. *)
Definition sample_errno_handler (n : nat) (job : sftpjob) (st : server)
  : Z * server :=
  (UINT32_MAX,
   {| protocol := protocol st; reverse_symlink := reverse_symlink st;
      workqueue := workqueue st; errno := 13;
      buffer := buffer st; output := output st |}).

Lemma errno_translation_witness :
  NoDup (map fst (errnotab linux_errno))
  /\ sample_HANDLER_RESPONDED <> UINT32_MAX
  /\ output (snd (process_sftpjob linux_errno linux_strerror "0.1" true
                    sample_HANDLER_RESPONDED
                    sample_sftpv3 sample_sftpv4 sample_sftpv5 sample_sftpv6
                    sample_errno_handler (new_job [3; 0; 0; 0; 9])
                    sample_v3_server))
     = [status_response 9 SSH_FX_PERMISSION_DENIED "Permission denied"]
  /\ errno_status linux_errno 39 = SSH_FX_DIR_NOT_EMPTY
  /\ errno_status linux_errno 11 = SSH_FX_FAILURE.
Proof.
  assert (Hresponded : sample_HANDLER_RESPONDED <> UINT32_MAX)
    by discriminate.
  split; [exact linux_errno_distinct|]. split; [exact Hresponded|].
  destruct (errno_translation linux_errno linux_strerror "0.1" true
              sample_HANDLER_RESPONDED
              sample_sftpv3 sample_sftpv4 sample_sftpv5 sample_sftpv6
              sample_errno_handler (new_job [3; 0; 0; 0; 9]) sample_v3_server
              linux_errno_distinct Hresponded)
    as (_ & Hhandler & _ & _ & _ & _ & _ & _ & _ & _ & _ & _ & _ & Hnotempty
        & _ & _ & Hother).
  split; [|split; [exact Hnotempty|]].
  - rewrite (Hhandler 3 [0; 0; 0; 9]
               {| type := 3; handler := handler_extern 0 |} 0%nat eq_refl
               (or_intror (Nat.le_refl 4)) sample_commands_sorted
               (or_intror (or_introl eq_refl)) eq_refl eq_refl eq_refl).
    reflexivity.
  - apply Hother; [discriminate|].
    cbn [In errno_names linux_errno EPERM EACCES ENOENT EIO ENOSPC ENOTDIR
           EISDIR EEXIST EROFS ELOOP ENAMETOOLONG ENOTEMPTY EDQUOT].
    intuition discriminate.
Defined.

(** The request that [sample_errno_handler] fails: the engine answers
    with the status and the text of EACCES. *)
Lemma sample_errno_answer :
  output (snd (process_sftpjob linux_errno linux_strerror "0.1" true
                 sample_HANDLER_RESPONDED
                 sample_sftpv3 sample_sftpv4 sample_sftpv5 sample_sftpv6
                 sample_errno_handler (new_job [3; 0; 0; 0; 9])
                 sample_v3_server))
  = [status_response 9 SSH_FX_PERMISSION_DENIED "Permission denied"].
Proof.
  rewrite (handler_consults_errno linux_errno linux_strerror "0.1" true
             sample_HANDLER_RESPONDED
             sample_sftpv3 sample_sftpv4 sample_sftpv5 sample_sftpv6
             sample_errno_handler (new_job [3; 0; 0; 0; 9]) sample_v3_server
             3 [0; 0; 0; 9] {| type := 3; handler := handler_extern 0 |} 0%nat
             ltac:(discriminate) eq_refl (or_intror (Nat.le_refl 4))
             sample_commands_sorted (or_intror (or_introl eq_refl))
             eq_refl eq_refl eq_refl).
  reflexivity.
Qed.

(** C6 as stated, at the status of all ones: the handler returns it and
    gives no message, and the message of the response is the text of
    the error, which is no entry of [status_to_string]. *)
Lemma status_message_outside_table :
  fst (sample_errno_handler 0 sample_job sample_v3_server) = UINT32_MAX
  /\ output (snd (process_sftpjob linux_errno linux_strerror "0.1" true
                    sample_HANDLER_RESPONDED
                    sample_sftpv3 sample_sftpv4 sample_sftpv5 sample_sftpv6
                    sample_errno_handler (new_job [3; 0; 0; 0; 9])
                    sample_v3_server))
     = [status_response 9 SSH_FX_PERMISSION_DENIED "Permission denied"]
  /\ send_status linux_errno linux_strerror
       sample_sftpv3 sample_sftpv4 sample_sftpv5 sample_sftpv6
       sample_job UINT32_MAX None sample_v3_server
     = (tt, emit (status_response 7 SSH_FX_NO_SUCH_FILE
                    "No such file or directory") sample_v3_server)
  /\ ~ (exists status,
          status_to_string status = "Permission denied"
          \/ status_to_string status = "No such file or directory").
Proof.
  split; [reflexivity|]. split; [exact sample_errno_answer|]. split.
  - rewrite send_status_consults_errno. reflexivity.
  - intros [status Htext]. revert Htext. unfold status_to_string.
    repeat match goal with
           | |- context [if ?x =? ?y then _ else _] =>
               destruct (x =? y); [intros [Htext|Htext]; discriminate Htext|]
           end.
    intros [Htext|Htext]; discriminate Htext.
Qed.

(** C10 as stated, at the status of all ones: a handler returns it, it
    exceeds [maxstatus] and comes without a message, and the response
    is not [SSH_FX_FAILURE] with the message of that status but the
    translated [errno] with the text of the error. *)
Lemma sentinel_not_sent_as_failure :
  UINT32_MAX
  > maxstatus (active sample_sftpv3 sample_sftpv4 sample_sftpv5 sample_sftpv6
                 sample_v3_server)
  /\ send_status linux_errno linux_strerror
       sample_sftpv3 sample_sftpv4 sample_sftpv5 sample_sftpv6
       sample_job UINT32_MAX None sample_v3_server
     = (tt, emit (status_response 7 SSH_FX_NO_SUCH_FILE
                    "No such file or directory") sample_v3_server)
  /\ status_response 7 SSH_FX_NO_SUCH_FILE "No such file or directory"
     <> status_response 7 SSH_FX_FAILURE (status_to_string UINT32_MAX)
  /\ output (snd (process_sftpjob linux_errno linux_strerror "0.1" true
                    sample_HANDLER_RESPONDED
                    sample_sftpv3 sample_sftpv4 sample_sftpv5 sample_sftpv6
                    sample_errno_handler (new_job [3; 0; 0; 0; 9])
                    sample_v3_server))
     <> [status_response 9 SSH_FX_FAILURE (status_to_string UINT32_MAX)].
Proof.
  split; [reflexivity|]. split; [|split].
  - rewrite send_status_consults_errno. reflexivity.
  - intros Hsame. vm_compute in Hsame. discriminate Hsame.
  - rewrite sample_errno_answer. intros Hsame. vm_compute in Hsame.
    discriminate Hsame.
Qed.

(** The requests of a connection: INIT, a request of type 17, INIT
    again. *)
Definition sample_connection : list sftpjob :=
  [new_job sample_init; new_job [17; 0; 0; 0; 7]; new_job sample_init].

Lemma sample_handler_keeps_protocol : handlers_keep_protocol sample_handler.
Proof. intros [|n] job st; reflexivity. Qed.

Lemma init_negotiation_witness :
  let result :=
    sftp_init "0.1" true sample_HANDLER_RESPONDED
      sample_sftpv3 sample_sftpv4 sample_sftpv5 sample_sftpv6
      sample_init_job initial_server in
  (fst result = sample_HANDLER_RESPONDED
   /\ protocol (snd result) = ref_sftpv3
   /\ reverse_symlink (snd result) = true)
  /\ (advances
        (connection_trace linux_errno linux_strerror "0.1" true
           sample_HANDLER_RESPONDED
           sample_sftpv3 sample_sftpv4 sample_sftpv5 sample_sftpv6
           sample_handler sample_connection initial_server) <= 1)%nat.
Proof.
  destruct (init_negotiation linux_errno linux_strerror "0.1" true
              sample_HANDLER_RESPONDED
              sample_sftpv3 sample_sftpv4 sample_sftpv5 sample_sftpv6
              sample_handler sample_init_job initial_server)
    as (_ & Hinit & _ & Hconnection).
  destruct (Hinit 3 {| data := sample_init; id := 0; ptr := [] |}
              eq_refl eq_refl) as (_ & Haccepted).
  split.
  - apply Haccepted. discriminate.
  - apply Hconnection. exact sample_handler_keeps_protocol.
Defined.

Lemma sample_init_reverse_symlink :
  reverse_symlink (snd (sftp_init "0.1" true sample_HANDLER_RESPONDED
                          sample_sftpv3 sample_sftpv4 sample_sftpv5
                          sample_sftpv6 sample_init_job initial_server))
  = true.
Proof.
  destruct (sftp_init_supported_globals "0.1" true sample_HANDLER_RESPONDED
              sample_sftpv3 sample_sftpv4 sample_sftpv5 sample_sftpv6
              sample_init_job initial_server 3
              {| data := sample_init; id := 0; ptr := [] |}
              eq_refl eq_refl) as (_ & _ & Hrs); try discriminate.
  exact Hrs.
Qed.

Lemma version_response_extensions_witness :
  tables_versioned sample_sftpv3 sample_sftpv4 sample_sftpv5 sample_sftpv6
  /\ output (snd (sftp_init "0.1" true sample_HANDLER_RESPONDED
                    sample_sftpv3 sample_sftpv4 sample_sftpv5 sample_sftpv6
                    sample_init_job initial_server))
     = [version_response 3
          [("vendor-id", vendor_id_block "0.1");
           ("symlink-order@rjk.greenend.org.uk",
            bytes_of_string "targetpath-linkpath")]].
Proof.
  split; [exact sample_tables_versioned|].
  destruct (version_response_extensions "0.1" true sample_HANDLER_RESPONDED
              sample_sftpv3 sample_sftpv4 sample_sftpv5 sample_sftpv6
              sample_init_job initial_server 3
              {| data := sample_init; id := 0; ptr := [] |}
              sample_tables_versioned eq_refl eq_refl)
    as (_ & Hout); [discriminate|].
  rewrite Hout, sample_init_reverse_symlink. reflexivity.
Defined.

Lemma dispatch_engine_witness :
  SSH_FX_OP_UNSUPPORTED
  <= maxstatus (active sample_sftpv3 sample_sftpv4 sample_sftpv5 sample_sftpv6
                  initial_server)
  /\ output (snd (process_sftpjob linux_errno linux_strerror "0.1" true
                    sample_HANDLER_RESPONDED
                    sample_sftpv3 sample_sftpv4 sample_sftpv5 sample_sftpv6
                    sample_handler (new_job [99; 0; 0; 0; 1]) initial_server))
     = [status_response 1 SSH_FX_OP_UNSUPPORTED "operation not supported"]
  /\ output (snd (process_sftpjob linux_errno linux_strerror "0.1" true
                    sample_HANDLER_RESPONDED
                    sample_sftpv3 sample_sftpv4 sample_sftpv5 sample_sftpv6
                    sample_handler (new_job [99; 0; 0]) initial_server))
     = [status_response 0 SSH_FX_BAD_MESSAGE "missing ID field"].
Proof.
  assert (Hmax : SSH_FX_OP_UNSUPPORTED
                 <= maxstatus (active sample_sftpv3 sample_sftpv4 sample_sftpv5
                                 sample_sftpv6 initial_server))
    by (vm_compute; discriminate).
  split; [exact Hmax|]. split.
  - destruct (dispatch_engine linux_errno linux_strerror "0.1" true
                sample_HANDLER_RESPONDED
                sample_sftpv3 sample_sftpv4 sample_sftpv5 sample_sftpv6
                sample_handler (new_job [99; 0; 0; 0; 1]) initial_server Hmax)
      as (_ & _ & Habsent & _).
    apply (Habsent 99 [0; 0; 0; 1] eq_refl).
    + right. cbn [length]. lia.
    + intros c [<-|[]]. discriminate.
  - destruct (dispatch_engine linux_errno linux_strerror "0.1" true
                sample_HANDLER_RESPONDED
                sample_sftpv3 sample_sftpv4 sample_sftpv5 sample_sftpv6
                sample_handler (new_job [99; 0; 0]) initial_server Hmax)
      as (_ & Hshort & _).
    apply (Hshort 99 [0; 0] eq_refl); [discriminate | cbn [length]; lia].
Defined.

Lemma request_id_echoed_witness :
  request_id [17; 0; 0; 1; 2] = 258
  /\ enc_uint32 (request_id [17; 0; 0; 1; 2]) = [0; 0; 1; 2].
Proof.
  destruct (request_id_echoed linux_errno linux_strerror "0.1" true
              sample_HANDLER_RESPONDED
              sample_sftpv3 sample_sftpv4 sample_sftpv5 sample_sftpv6
              sample_handler (new_job [17; 0; 0; 1; 2]) sample_v3_server)
    as (_ & Hid & _).
  apply (Hid 17 0 0 1 2 [] eq_refl); try discriminate; lia.
Defined.

Lemma framing_errors_witness :
  Forall well_framed [sample_init]
  /\ sftp_service_loop linux_errno linux_strerror "0.1" true
       sample_HANDLER_RESPONDED
       sample_sftpv3 sample_sftpv4 sample_sftpv5 sample_sftpv6 sample_handler
       (stream [sample_init] ++ [0; 0; 0; 0] ++ [3; 0; 0; 0; 9]) initial_server
     = (fatal "zero length job",
        served linux_errno linux_strerror "0.1" true sample_HANDLER_RESPONDED
          sample_sftpv3 sample_sftpv4 sample_sftpv5 sample_sftpv6
          sample_handler [sample_init] initial_server)
  /\ sftp_service_loop linux_errno linux_strerror "0.1" true
       sample_HANDLER_RESPONDED
       sample_sftpv3 sample_sftpv4 sample_sftpv5 sample_sftpv6 sample_handler
       (stream [sample_init] ++ [0; 0; 0; 9] ++ [3; 0; 0]) initial_server
     = (fatal "read error: unexpected eof",
        served linux_errno linux_strerror "0.1" true sample_HANDLER_RESPONDED
          sample_sftpv3 sample_sftpv4 sample_sftpv5 sample_sftpv6
          sample_handler [sample_init] initial_server).
Proof.
  assert (Hframed : Forall well_framed [sample_init]).
  { constructor; [split; [discriminate | reflexivity] | constructor]. }
  split; [exact Hframed|].
  destruct (framing_errors linux_errno linux_strerror "0.1" true
              sample_HANDLER_RESPONDED
              sample_sftpv3 sample_sftpv4 sample_sftpv5 sample_sftpv6
              sample_handler [sample_init] initial_server Hframed)
    as (_ & Hzero & Heof).
  split.
  - apply Hzero; reflexivity.
  - apply Heof; [reflexivity | cbn; lia].
Defined.

(** Scenario 2 of the spec: after INIT with version 6 there is no pool
    yet; the request that follows is processed by the reader, and when
    it completes the pool exists. *)
Example pool_deferred_for_version_6 :
  let process :=
    process_sftpjob linux_errno linux_strerror "0.1" true
      sample_HANDLER_RESPONDED
      sample_sftpv3 sample_sftpv4 sample_sftpv5 sample_sftpv6 sample_handler in
  let st1 := snd (process (new_job [1; 0; 0; 0; 6]) initial_server) in
  workqueue st1 = None
  /\ workqueue (snd (process (new_job [17; 0; 0; 0; 1]) st1)) <> None.
Proof.
  cbv zeta. split.
  - rewrite (init_request_accepted linux_errno linux_strerror "0.1" true
               sample_HANDLER_RESPONDED
               sample_sftpv3 sample_sftpv4 sample_sftpv5 sample_sftpv6
               sample_handler (new_job [1; 0; 0; 0; 6]) initial_server
               [0; 0; 0; 6] 6 {| data := [1; 0; 0; 0; 6]; id := 0; ptr := [] |}
               sample_tables_versioned eq_refl eq_refl eq_refl)
      by discriminate.
    apply (pool_after_init "0.1" true sample_HANDLER_RESPONDED
             sample_sftpv3 sample_sftpv4 sample_sftpv5 sample_sftpv6
             {| data := [1; 0; 0; 0; 6]; id := 0; ptr := [0; 0; 0; 6] |}
             initial_server 6 {| data := [1; 0; 0; 0; 6]; id := 0; ptr := [] |}
             sample_tables_versioned eq_refl eq_refl);
      [discriminate | reflexivity].
  - apply (pool_created_unless_init linux_errno linux_strerror "0.1" true
             sample_HANDLER_RESPONDED
             sample_sftpv3 sample_sftpv4 sample_sftpv5 sample_sftpv6
             sample_handler (new_job [17; 0; 0; 0; 1]) _ 17 [0; 0; 0; 1]
             eq_refl).
    discriminate.
Qed.

(** ** The further properties on the sample build *)

Lemma sample_request_framed : Forall well_framed [[17; 0; 0; 0; 7]].
Proof. constructor; [split; [discriminate | reflexivity] | constructor]. Qed.

Lemma reader_only_enqueues_witness :
  workqueue sample_v3_server = Some {| nthreads := 4; jobs := [] |}
  /\ Forall well_framed [[17; 0; 0; 0; 7]]
  /\ exists st',
       sftp_service_loop linux_errno linux_strerror "0.1" true
         sample_HANDLER_RESPONDED
         sample_sftpv3 sample_sftpv4 sample_sftpv5 sample_sftpv6 sample_handler
         (stream [[17; 0; 0; 0; 7]]) sample_v3_server
       = (returned, st')
       /\ workqueue st'
          = Some {| nthreads := 4; jobs := [new_job [17; 0; 0; 0; 7]] |}
       /\ output st' = [].
Proof.
  split; [reflexivity|]. split; [exact sample_request_framed|].
  destruct (reader_only_enqueues linux_errno linux_strerror "0.1" true
              sample_HANDLER_RESPONDED
              sample_sftpv3 sample_sftpv4 sample_sftpv5 sample_sftpv6
              sample_handler [[17; 0; 0; 0; 7]] sample_v3_server
              {| nthreads := 4; jobs := [] |} eq_refl sample_request_framed)
    as (st' & Hloop & Hqueue & _ & Hout & _).
  exists st'. split; [exact Hloop|]. split; [exact Hqueue | exact Hout].
Defined.

Lemma single_threaded_until_first_request_witness :
  workqueue initial_server = None
  /\ Forall well_framed [[17; 0; 0; 0; 1]; [3; 0; 0; 0; 2]]
  /\ exists q,
       workqueue
         (snd (process_sftpjob linux_errno linux_strerror "0.1" true
                 sample_HANDLER_RESPONDED
                 sample_sftpv3 sample_sftpv4 sample_sftpv5 sample_sftpv6
                 sample_handler (new_job [17; 0; 0; 0; 1]) initial_server))
       = Some q
       /\ sftp_service_loop linux_errno linux_strerror "0.1" true
            sample_HANDLER_RESPONDED
            sample_sftpv3 sample_sftpv4 sample_sftpv5 sample_sftpv6
            sample_handler
            (stream [[17; 0; 0; 0; 1]; [3; 0; 0; 0; 2]]) initial_server
          = (returned,
             set_workqueue
               (Some {| nthreads := nthreads q;
                        jobs := jobs q ++ map new_job [[3; 0; 0; 0; 2]] |})
               (snd (process_sftpjob linux_errno linux_strerror "0.1" true
                       sample_HANDLER_RESPONDED
                       sample_sftpv3 sample_sftpv4 sample_sftpv5 sample_sftpv6
                       sample_handler (new_job [17; 0; 0; 0; 1])
                       initial_server))).
Proof.
  assert (Hframed : Forall well_framed [[17; 0; 0; 0; 1]; [3; 0; 0; 0; 2]]).
  { repeat (constructor; [split; [discriminate | reflexivity]|]).
    constructor. }
  split; [reflexivity|]. split; [exact Hframed|].
  apply (single_threaded_until_first_request linux_errno linux_strerror "0.1"
           true sample_HANDLER_RESPONDED
           sample_sftpv3 sample_sftpv4 sample_sftpv5 sample_sftpv6
           sample_handler [17; 0; 0; 0; 1] 17 [0; 0; 0; 1] [[3; 0; 0; 0; 2]]
           initial_server eq_refl eq_refl);
    [discriminate | exact Hframed].
Defined.

Lemma sftp_service_outcome_witness :
  bytes_only (stream [sample_init] ++ [0; 0; 0; 9; 3; 0; 0])
  /\ exists packets rest,
       stream [sample_init] ++ [0; 0; 0; 9; 3; 0; 0] = stream packets ++ rest
       /\ Forall well_framed packets.
Proof.
  assert (Hbytes : bytes_only (stream [sample_init] ++ [0; 0; 0; 9; 3; 0; 0])).
  { apply Forall_forall. intros b Hin. vm_compute in Hin.
    repeat (destruct Hin as [<-|Hin]; [lia|]). destruct Hin. }
  split; [exact Hbytes|].
  destruct (sftp_service_outcome linux_errno linux_strerror "0.1" true
              sample_HANDLER_RESPONDED
              sample_sftpv3 sample_sftpv4 sample_sftpv5 sample_sftpv6
              sample_handler _ initial_server Hbytes)
    as (packets & rest & Hsplit & Hframed & _).
  exists packets, rest. split; [exact Hsplit | exact Hframed].
Defined.

Lemma failed_init_changes_nothing_witness :
  protocol initial_server = ref_sftppreinit
  /\ sample_HANDLER_RESPONDED <> SSH_FX_BAD_MESSAGE
  /\ sample_HANDLER_RESPONDED <> SSH_FX_OP_UNSUPPORTED
  /\ snd (process_sftpjob linux_errno linux_strerror "0.1" true
            sample_HANDLER_RESPONDED
            sample_sftpv3 sample_sftpv4 sample_sftpv5 sample_sftpv6
            sample_handler (new_job [1; 0; 0; 0; 2]) initial_server)
     = emit (status_response 0 SSH_FX_OP_UNSUPPORTED "operation not supported")
         initial_server.
Proof.
  split; [reflexivity|]. split; [discriminate|]. split; [discriminate|].
  destruct (failed_init_changes_nothing linux_errno linux_strerror "0.1" true
              sample_HANDLER_RESPONDED
              sample_sftpv3 sample_sftpv4 sample_sftpv5 sample_sftpv6
              sample_handler (new_job [1; 0; 0; 0; 2]) initial_server
              [0; 0; 0; 2] eq_refl eq_refl)
    as (_ & Hold); [discriminate | discriminate |].
  apply (Hold 0 0 0 2 [] eq_refl). right. right. reflexivity.
Defined.

Lemma second_init_refused_witness :
  protocol sample_v3_server <> ref_sftppreinit
  /\ SSH_FX_FAILURE
     <= maxstatus (active sample_sftpv3 sample_sftpv4 sample_sftpv5
                     sample_sftpv6 sample_v3_server)
  /\ sample_HANDLER_RESPONDED <> SSH_FX_FAILURE
  /\ snd (process_sftpjob linux_errno linux_strerror "0.1" true
            sample_HANDLER_RESPONDED
            sample_sftpv3 sample_sftpv4 sample_sftpv5 sample_sftpv6
            sample_handler (new_job sample_init) sample_v3_server)
     = emit (status_response 0 SSH_FX_FAILURE "operation failed")
         sample_v3_server.
Proof.
  split; [discriminate|]. split; [vm_compute; discriminate|].
  split; [discriminate|].
  apply (second_init_refused linux_errno linux_strerror "0.1" true
           sample_HANDLER_RESPONDED
           sample_sftpv3 sample_sftpv4 sample_sftpv5 sample_sftpv6
           sample_handler (new_job sample_init) sample_v3_server [0; 0; 0; 3]
           {| type := 1; handler := handler_sftp_init |}).
  - discriminate.
  - reflexivity.
  - exact sample_commands_sorted.
  - left. reflexivity.
  - reflexivity.
  - reflexivity.
  - vm_compute; discriminate.
  - discriminate.
Defined.

Lemma init_reads_version_only_witness :
  firstn 4 (ptr sample_init_job) = firstn 4 [0; 0; 0; 3; 9; 9]
  /\ sftp_init "0.1" true sample_HANDLER_RESPONDED
       sample_sftpv3 sample_sftpv4 sample_sftpv5 sample_sftpv6
       sample_init_job initial_server
     = sftp_init "0.1" true sample_HANDLER_RESPONDED
         sample_sftpv3 sample_sftpv4 sample_sftpv5 sample_sftpv6
         {| data := sample_init; id := 0; ptr := [0; 0; 0; 3; 9; 9] |}
         initial_server.
Proof.
  split; [reflexivity|].
  apply (init_reads_version_only "0.1" true sample_HANDLER_RESPONDED
           sample_sftpv3 sample_sftpv4 sample_sftpv5 sample_sftpv6
           sample_init_job
           {| data := sample_init; id := 0; ptr := [0; 0; 0; 3; 9; 9] |}
           initial_server).
  reflexivity.
Defined.

Lemma one_response_before_init_witness :
  bytes_only (data (new_job [99; 0; 0; 0; 1]))
  /\ exists payload,
       output (snd (process_sftpjob linux_errno linux_strerror "0.1" true
                      sample_HANDLER_RESPONDED
                      sample_sftpv3 sample_sftpv4 sample_sftpv5 sample_sftpv6
                      sample_handler (new_job [99; 0; 0; 0; 1])
                      initial_server))
       = output initial_server ++ [payload].
Proof.
  assert (Hbytes : bytes_only (data (new_job [99; 0; 0; 0; 1]))).
  { apply Forall_forall. intros b Hin. vm_compute in Hin.
    repeat (destruct Hin as [<-|Hin]; [lia|]). destruct Hin. }
  split; [exact Hbytes|].
  destruct (one_response_before_init linux_errno linux_strerror "0.1" true
              sample_HANDLER_RESPONDED
              sample_sftpv3 sample_sftpv4 sample_sftpv5 sample_sftpv6
              sample_handler (new_job [99; 0; 0; 0; 1]) initial_server
              sample_tables_versioned eq_refl Hbytes)
    as (payload & Hout & _); [discriminate | discriminate |].
  exists payload. exact Hout.
Defined.

Lemma connection_opened_witness :
  tables_versioned sample_sftpv3 sample_sftpv4 sample_sftpv5 sample_sftpv6
  /\ Forall well_framed [SSH_FXP_INIT :: enc_uint32 3 ++ []; [17; 0; 0; 0; 7]]
  /\ exists st,
       sftp_service linux_errno linux_strerror "0.1" true
         sample_HANDLER_RESPONDED
         sample_sftpv3 sample_sftpv4 sample_sftpv5 sample_sftpv6 sample_handler
         (stream [SSH_FXP_INIT :: enc_uint32 3 ++ []; [17; 0; 0; 0; 7]])
       = (returned, st)
       /\ protocol st = ref_sftpv3
       /\ workqueue st
          = Some {| nthreads := 4; jobs := [new_job [17; 0; 0; 0; 7]] |}.
Proof.
  assert (Hframed : Forall well_framed
                      [SSH_FXP_INIT :: enc_uint32 3 ++ []; [17; 0; 0; 0; 7]]).
  { repeat (constructor; [split; [discriminate | reflexivity]|]).
    constructor. }
  split; [exact sample_tables_versioned|]. split; [exact Hframed|].
  destruct (connection_opened linux_errno linux_strerror "0.1" true
              sample_HANDLER_RESPONDED
              sample_sftpv3 sample_sftpv4 sample_sftpv5 sample_sftpv6
              sample_handler 3 [] [[17; 0; 0; 0; 7]]
              sample_tables_versioned ltac:(lia) Hframed)
    as (st & Hrun & Hprotocol & Hqueue & _).
  exists st. split; [exact Hrun|]. split; [exact Hprotocol | exact Hqueue].
Defined.

Lemma ok_never_coerced_witness :
  0 <= maxstatus (active sample_sftpv3 sample_sftpv4 sample_sftpv5
                    sample_sftpv6 sample_v3_server)
  /\ send_ok linux_errno linux_strerror
       sample_sftpv3 sample_sftpv4 sample_sftpv5 sample_sftpv6
       sample_job sample_v3_server
     = (tt, emit (status_response 7 SSH_FX_OK "OK") sample_v3_server).
Proof.
  assert (Hmax : 0 <= maxstatus (active sample_sftpv3 sample_sftpv4
                                   sample_sftpv5 sample_sftpv6
                                   sample_v3_server))
    by (vm_compute; discriminate).
  split; [exact Hmax|].
  exact (ok_never_coerced linux_errno linux_strerror
           sample_sftpv3 sample_sftpv4 sample_sftpv5 sample_sftpv6
           sample_job sample_v3_server Hmax).
Defined.

Lemma binary_search_probes_witness :
  sample_commands <> []
  /\ 2 ^ Z.of_nat (length (locate_probes sample_commands 17 0 3)) <= 8.
Proof.
  assert (Hne : sample_commands <> []) by discriminate.
  split; [exact Hne|].
  destruct (binary_search_probes sample_commands 17 Hne) as (_ & Hcount & _).
  exact Hcount.
Defined.
